(** * The file-acceptance engine of the [DragDropUpload] widget

    A shallow embedding of [src/components/file_upload.tsx]: the validation
    of one candidate ([validateFile]), the processing of a dropped or
    selected batch ([processFiles]), the removal of an accepted file
    ([removeFile]), the delayed clear of the error banner and the disposal
    of the widget, with the properties the specification states about them.

    Conventions of the model.
    - JS strings are Rocq strings (sequences of 8-bit code units); the
      string methods the component calls are the functions of [JSString].
    - JS numbers are integers ([Z]): sizes, counts, indexes, milliseconds.
    - A blob URL returned by [URL.createObjectURL] is an opaque handle, a
      natural number; the browser never returns the same one twice, which
      the model renders by a counter ([nextUrl]).
    - Every [File] of a [FileList] is an object the browser created for that
      drop or selection, so candidates are values without [preview]; the
      property is added when the candidate is staged.
    - What an operation does to the outside world (blob URLs, the
      [onFilesChange] prop, timers) is the list of [Effect]s it returns. *)

From Stdlib Require Import ZArith List String Ascii Lia Bool DecimalString Permutation.
Import ListNotations.

Local Open Scope Z_scope.

(* ------------------------------------------------------------------ *)
(** ** The string methods used by the component *)

Module JSString.

Local Open Scope string_scope.

(** [s.startsWith(p)] *)
Definition startsWith (s p : string) : bool := String.prefix p s.

(** [s.endsWith(p)]: the last [length p] code units of [s] are [p]. *)
Definition endsWith (s p : string) : bool :=
  let n := String.length s in
  let m := String.length p in
  if (m <=? n)%nat then String.eqb (String.substring (n - m) m s) p else false.

(** [s.includes(p)]: [p] occurs in [s] at some position. *)
Fixpoint includes (s p : string) : bool :=
  String.prefix p s ||
  match s with
  | EmptyString => false
  | String _ s' => includes s' p
  end.

(** [s.split(sep)[0]] for a one-character separator: what precedes the
    first occurrence of [sep], the whole string when there is none. *)
Fixpoint splitHead (s : string) (sep : ascii) : string :=
  match s with
  | EmptyString => EmptyString
  | String c s' => if Ascii.eqb c sep then EmptyString else String c (splitHead s' sep)
  end.

Definition lowerChar (c : ascii) : ascii :=
  let n := nat_of_ascii c in
  if ((65 <=? n) && (n <=? 90))%nat then ascii_of_nat (n + 32) else c.

(** [s.toLowerCase()], on the letters A to Z. *)
Fixpoint toLowerCase (s : string) : string :=
  match s with
  | EmptyString => EmptyString
  | String c s' => String (lowerChar c) (toLowerCase s')
  end.

(** The text of an integer inside a template literal (decimal digits, for
    the integers below 10^21 in absolute value). *)
Definition ofNumber (n : Z) : string := NilZero.string_of_int (Z.to_int n).

(** The character U+0022. *)
Definition dquote : string := String "034"%char EmptyString.

End JSString.

(* ------------------------------------------------------------------ *)
(** ** Data *)

(** The fields of a browser [File] that the component reads. *)
Record File : Type := mkFile {
  name : string;
  size : Z;
  type : string
}.

(** A blob URL, as [URL.createObjectURL] returns it. *)
Definition Url : Type := nat.

(** [interface FileWithPreview extends File { preview?: string }] *)
Record FileWithPreview : Type := mkFileWithPreview {
  file : File;
  preview : option Url
}.

(** [DragDropUploadProps], without [className]. [onFilesChange] tells
    whether the optional callback is supplied. *)
Record Props : Type := mkProps {
  onFilesChange : bool;
  maxFiles : Z;
  maxSize : Z;
  acceptedTypes : list string
}.

(** The default values of the destructured props (no callback). *)
Definition defaultProps : Props :=
  {| onFilesChange := false;
     maxFiles := 5;
     maxSize := 10 * 1024 * 1024;
     acceptedTypes := ["image/*"; "application/pdf"; ".doc"; ".docx"; ".txt"]%string |}.

(** What the component does to its environment. *)
Inductive Effect : Type :=
| CreateObjectURL (f : File) (u : Url)
| RevokeObjectURL (u : Url)
| OnFilesChange (fs : list FileWithPreview)
| SetTimeout (ms : Z).

(** An uncaught exception. *)
Inductive JSError : Type :=
| TypeError.

(** The React state of the widget ([files], [error]) together with the part
    of the browser the widget talks to: the next blob URL, the clock (in
    milliseconds) and the deadlines of the pending [() => setError(null)]
    timers, oldest first. *)
Record State : Type := mkState {
  files : list FileWithPreview;
  error : option string;
  nextUrl : Url;
  now : Z;
  timers : list Z
}.

(** [useState([])], [useState(null)] at mount. *)
Definition initialState : State :=
  {| files := []; error := None; nextUrl := 0%nat; now := 0; timers := [] |}.

(** The result of one call of an event handler. *)
Record Outcome : Type := mkOutcome {
  state : State;
  effects : list Effect;
  thrown : option JSError
}.

(* ------------------------------------------------------------------ *)
(** ** validateFile *)

Section Validation.

Local Open Scope string_scope.
Import JSString.

(** [Math.round(maxSize / 1024 / 1024)]: the quotient is exact, and
    [Math.round] takes the nearest integer, a half going up. *)
Definition roundMB (maxSize : Z) : Z := (maxSize + 524288) / 1048576.

Definition tooLargeMessage (fileName : string) (maxSize : Z) : string :=
  "File " ++ dquote ++ fileName ++ dquote ++ " is too large. Maximum size is "
    ++ ofNumber (roundMB maxSize) ++ "MB.".

Definition unsupportedMessage (fileName : string) : string :=
  "File " ++ dquote ++ fileName ++ dquote ++ " is not a supported file type.".

Definition capacityMessage (maxFiles : Z) : string :=
  "Maximum " ++ ofNumber maxFiles ++ " files allowed.".

(** The callback of [acceptedTypes.some(...)]. *)
Definition typeMatches (fileType fileName : string) (type : string) : bool :=
  if startsWith type "." then endsWith fileName type
  else if includes type "*" then
    let baseType := splitHead type "/"%char in
    startsWith fileType baseType
  else String.eqb fileType type.

Definition validateFile (p : Props) (f : File) : option string :=
  if size f >? maxSize p then Some (tooLargeMessage (name f) (maxSize p))
  else
    let fileType := type f in
    let fileName := toLowerCase (name f) in
    let isValidType := existsb (typeMatches fileType fileName) (acceptedTypes p) in
    if negb isValidType then Some (unsupportedMessage (name f))
    else None.

End Validation.

(* ------------------------------------------------------------------ *)
(** ** processFiles *)

(** The variables of one [processFiles] call that the [forEach] callback
    updates: [newFiles], [errors], and the browser's next blob URL with the
    effects performed so far. *)
Record Batch : Type := mkBatch {
  newFiles : list FileWithPreview;
  errors : list string;
  fresh : Url;
  performed : list Effect
}.

(** The two guarded exits of the [forEach] callback,
    [errors.push(...); return]: the message pushed for [f], if any. *)
Definition rejection (p : Props) (files : list FileWithPreview)
    (b : Batch) (f : File) : option string :=
  match validateFile p f with
  | Some validationError => Some validationError
  | None =>
      if Z.of_nat (List.length files + List.length (newFiles b)) >=? maxFiles p
      then Some (capacityMessage (maxFiles p))
      else None
  end.

(** The body of [Array.from(fileList).forEach((file) => ...)]; each
    [return] ends the callback for this file only. *)
Definition forEachBody (p : Props) (files : list FileWithPreview)
    (b : Batch) (f : File) : Batch :=
  match rejection p files b f with
  | Some message =>
      {| newFiles := newFiles b; errors := errors b ++ [message];
         fresh := fresh b; performed := performed b |}
  | None =>
      if JSString.startsWith (type f) "image/" then
        {| newFiles := newFiles b ++ [mkFileWithPreview f (Some (fresh b))];
           errors := errors b;
           fresh := S (fresh b);
           performed := performed b ++ [CreateObjectURL f (fresh b)] |}
      else
        {| newFiles := newFiles b ++ [mkFileWithPreview f None];
           errors := errors b; fresh := fresh b; performed := performed b |}
  end.

Definition forEach (p : Props) (files : list FileWithPreview)
    (fileList : list File) (b : Batch) : Batch :=
  fold_left (forEachBody p files) fileList b.

Definition emptyBatch (s : State) : Batch :=
  {| newFiles := []; errors := []; fresh := nextUrl s; performed := [] |}.

(** [onFilesChange?.(updatedFiles)] *)
Definition callOnFilesChange (p : Props) (updatedFiles : list FileWithPreview)
    : list Effect :=
  if onFilesChange p then [OnFilesChange updatedFiles] else [].

Definition processFiles (p : Props) (s : State) (fileList : list File) : Outcome :=
  let b := forEach p (files s) fileList (emptyBatch s) in
  let '(error', timers', timerEffects) :=
    match errors b with
    | first :: _ => (Some first, timers s ++ [now s + 5000], [SetTimeout 5000])
    | [] => (None, timers s, [])
    end in
  let '(files', changeEffects) :=
    match newFiles b with
    | _ :: _ =>
        let updatedFiles := files s ++ newFiles b in
        (updatedFiles, callOnFilesChange p updatedFiles)
    | [] => (files s, [])
    end in
  {| state := {| files := files'; error := error'; nextUrl := fresh b;
                 now := now s; timers := timers' |};
     effects := performed b ++ timerEffects ++ changeEffects;
     thrown := None |}.

(* ------------------------------------------------------------------ *)
(** ** removeFile *)

(** [l.filter((x, i) => keep(x, i))], the positions counted from [i]. *)
Fixpoint filterIndexed {A : Type} (keep : A -> Z -> bool) (l : list A) (i : Z)
    : list A :=
  match l with
  | [] => []
  | x :: l' =>
      if keep x i then x :: filterIndexed keep l' (i + 1)
      else filterIndexed keep l' (i + 1)
  end.

(** [l[index]]: [undefined] ([None]) outside of [0 .. length - 1]. *)
Definition at_ {A : Type} (l : list A) (index : Z) : option A :=
  if index <? 0 then None else nth_error l (Z.to_nat index).

Definition removeFile (p : Props) (s : State) (index : Z) : Outcome :=
  let updatedFiles :=
    filterIndexed (fun _ i => negb (i =? index)) (files s) 0 in
  match at_ (files s) index with
  | None =>
      (* [fileToRemove.preview] on [undefined] *)
      {| state := s; effects := []; thrown := Some TypeError |}
  | Some fileToRemove =>
      let revoked :=
        match preview fileToRemove with
        | Some u => [RevokeObjectURL u]
        | None => []
        end in
      {| state := {| files := updatedFiles; error := error s; nextUrl := nextUrl s;
                     now := now s; timers := timers s |};
         effects := revoked ++ callOnFilesChange p updatedFiles;
         thrown := None |}
  end.

(* ------------------------------------------------------------------ *)
(** ** Time and disposal *)

Definition due (t : Z) (deadline : Z) : bool := deadline <=? t.

(** [ms] milliseconds pass with no gesture of the user: the timers whose
    deadline is reached run their callback [() => setError(null)]. *)
Definition elapse (s : State) (ms : Z) : State :=
  let t := now s + ms in
  {| files := files s;
     error := if existsb (due t) (timers s) then None else error s;
     nextUrl := nextUrl s;
     now := t;
     timers := filter (fun d => negb (due t d)) (timers s) |}.

(** What the component runs when React unmounts it: it registers no effect
    (no [useEffect]), hence no cleanup. *)
Definition unmount (s : State) : list Effect := [].

(* ------------------------------------------------------------------ *)
(** ** Sequences of calls *)

Inductive Call : Type :=
| SubmitBatch (fileList : list File)
| RemoveEntry (index : Z)
| Wait (ms : Z).

Definition perform (p : Props) (s : State) (c : Call) : Outcome :=
  match c with
  | SubmitBatch fileList => processFiles p s fileList
  | RemoveEntry index => removeFile p s index
  | Wait ms => {| state := elapse s ms; effects := []; thrown := None |}
  end.

(** The state after a sequence of calls and everything done on the way; an
    exception ends the handler that raised it, not the widget. *)
Fixpoint run (p : Props) (s : State) (cs : list Call) : State * list Effect :=
  match cs with
  | [] => (s, [])
  | c :: cs' =>
      let o := perform p s c in
      let '(s', es) := run p (state o) cs' in
      (s', effects o ++ es)
  end.

(* ------------------------------------------------------------------ *)
(** ** Reading batches, file lists and effects *)

(** The messages pushed on [errors] while [fileList] is processed from [b],
    candidate by candidate. *)
Fixpoint rejections (p : Props) (files : list FileWithPreview)
    (fileList : list File) (b : Batch) : list string :=
  match fileList with
  | [] => []
  | f :: fileList' =>
      match rejection p files b f with
      | Some message => [message]
      | None => []
      end ++ rejections p files fileList' (forEachBody p files b f)
  end.

(** The message a candidate gets once the widget is full. *)
Definition rejectionWhenFull (p : Props) (f : File) : string :=
  match validateFile p f with
  | Some validationError => validationError
  | None => capacityMessage (maxFiles p)
  end.

(** The blob URLs held by a list of entries. *)
Definition previewsOf (fs : list FileWithPreview) : list Url :=
  flat_map (fun x => match preview x with Some u => [u] | None => [] end) fs.

Definition createdUrls (es : list Effect) : list Url :=
  flat_map (fun e => match e with CreateObjectURL _ u => [u] | _ => [] end) es.

Definition revokedUrls (es : list Effect) : list Url :=
  flat_map (fun e => match e with RevokeObjectURL u => [u] | _ => [] end) es.

(** The URLs created so far are [0 .. nextUrl - 1], and each of them
    either has been revoked or is the preview of an accepted file. *)
Definition urlsAccounted (s : State) (past : list Effect) : Prop :=
  createdUrls past = seq 0 (nextUrl s)
  /\ Permutation (seq 0 (nextUrl s)) (revokedUrls past ++ previewsOf (files s)).

(** The arguments of the calls of [onFilesChange]. *)
Definition notifications (es : list Effect) : list (list FileWithPreview) :=
  flat_map (fun e => match e with OnFilesChange fs => [fs] | _ => [] end) es.

(** The delays of the timers started. *)
Definition scheduled (es : list Effect) : list Z :=
  flat_map (fun e => match e with SetTimeout ms => [ms] | _ => [] end) es.

(** The allocations that gave a list of entries their blob URLs. *)
Definition allocationsOf (fs : list FileWithPreview) : list Effect :=
  flat_map (fun x => match preview x with
                     | Some u => [CreateObjectURL (file x) u]
                     | None => []
                     end) fs.

(** An entry as the loop stages it: a candidate of [fileList] that passed
    [validateFile], with a preview exactly when its type starts with
    [image/]. *)
Definition stagedFrom (p : Props) (fileList : list File) (x : FileWithPreview) : Prop :=
  In (file x) fileList
  /\ validateFile p (file x) = None
  /\ (preview x <> None <-> JSString.startsWith (type (file x)) "image/" = true).

(** The candidates of a batch that were staged. *)
Definition stagedFiles (b : Batch) : list File := map file (newFiles b).

(** [s] occurs inside [t]. *)
Definition occursIn (s t : string) : Prop :=
  exists before after : string, t = (before ++ s ++ after)%string.

(* ------------------------------------------------------------------ *)
(** ** Sample configurations and files *)

Module Sample.

Local Open Scope string_scope.

(** The configuration of the specification's scenario: at most two
    files of at most 1000 bytes, images only, with a callback. *)
Definition props : Props :=
  {| onFilesChange := true; maxFiles := 2; maxSize := 1000;
     acceptedTypes := ["image/*"] |}.

(** The same with room for a single file. *)
Definition propsOne : Props :=
  {| onFilesChange := true; maxFiles := 1; maxSize := 1000;
     acceptedTypes := ["image/*"] |}.

Definition imgA : File := mkFile "imgA.png" 500 "image/png".
Definition imgC : File := mkFile "imgC.png" 500 "image/png".
Definition imgD : File := mkFile "imgD.png" 500 "image/png".
Definition docB : File := mkFile "docB.pdf" 500 "application/pdf".
Definition huge : File := mkFile "huge.png" 5000 "image/png".

(** A file whose declared type begins with [image] but not with
    [image/]. *)
Definition odd : File := mkFile "scan.bin" 500 "images/png".

(** A file over the default limit of 10 MB. *)
Definition elevenMB : File := mkFile "movie.png" (11 * 1024 * 1024) "image/png".

(** The widget after [imgA] and [imgC] were dropped on it. *)
Definition twoAccepted : State :=
  state (processFiles props initialState [imgA; imgC]).

End Sample.

(* ------------------------------------------------------------------ *)
(** ** Event handlers and rendering *)

(** The widget as the user meets it: the state above, the drag highlight
    ([isDragOver]) and the value of the hidden file input. *)
Record Widget : Type := mkWidget {
  core : State;
  isDragOver : bool;
  inputValue : string
}.

(** The widget when it mounts. *)
Definition mounted : Widget :=
  {| core := initialState; isDragOver := false; inputValue := EmptyString |}.

(** The result of one gesture. *)
Record Handled : Type := mkHandled {
  widget : Widget;
  emitted : list Effect;
  raised : option JSError
}.

Definition handleDragOver (w : Widget) : Handled :=
  {| widget := {| core := core w; isDragOver := true; inputValue := inputValue w |};
     emitted := []; raised := None |}.

Definition handleDragLeave (w : Widget) : Handled :=
  {| widget := {| core := core w; isDragOver := false; inputValue := inputValue w |};
     emitted := []; raised := None |}.

(** [handleDrop]: the highlight goes, and a drop that carries files is
    processed. *)
Definition handleDrop (p : Props) (w : Widget) (droppedFiles : list File) : Handled :=
  match droppedFiles with
  | _ :: _ =>
      let o := processFiles p (core w) droppedFiles in
      {| widget := {| core := state o; isDragOver := false; inputValue := inputValue w |};
         emitted := effects o; raised := thrown o |}
  | [] =>
      {| widget := {| core := core w; isDragOver := false; inputValue := inputValue w |};
         emitted := []; raised := None |}
  end.

(** [handleFileInput]: [e.target.files] may be [null]; the value of the
    input is reset whatever was selected. *)
Definition handleFileInput (p : Props) (w : Widget)
    (selectedFiles : option (list File)) : Handled :=
  match selectedFiles with
  | Some ((_ :: _) as fileList) =>
      let o := processFiles p (core w) fileList in
      {| widget := {| core := state o; isDragOver := isDragOver w;
                      inputValue := EmptyString |};
         emitted := effects o; raised := thrown o |}
  | _ =>
      {| widget := {| core := core w; isDragOver := isDragOver w;
                      inputValue := EmptyString |};
         emitted := []; raised := None |}
  end.

(** [l.map((x, i) => f(x, i))], the positions counted from [i]. *)
Fixpoint mapIndexed {A B : Type} (f : A -> Z -> B) (l : list A) (i : Z) : list B :=
  match l with
  | [] => []
  | x :: l' => f x i :: mapIndexed f l' (i + 1)
  end.

(** The index each rendered remove button passes to [removeFile]:
    [files.map((file, index) => ... onClick={() => removeFile(index)})]. *)
Definition removeButtons (fs : list FileWithPreview) : list Z :=
  mapIndexed (fun _ index => index) fs 0.

(** The icons of [lucide-react] the list uses. *)
Inductive Icon : Type :=
| ImageIcon
| FileText
| FileIcon.

Definition getFileIcon (f : File) : Icon :=
  if JSString.startsWith (type f) "image/" then ImageIcon
  else if String.eqb (type f) "application/pdf" then FileText
  else FileIcon.

(** What a row of the list shows on its left: the preview image when the
    entry has one, the icon of its type otherwise. *)
Inductive Thumbnail : Type :=
| Img (src : Url)
| IconBox (icon : Icon).

Definition thumbnail (x : FileWithPreview) : Thumbnail :=
  match preview x with
  | Some u => Img u
  | None => IconBox (getFileIcon (file x))
  end.

(** [{error && (<div ...>{error}</div>)}]: the text of the banner, when
    one is rendered. *)
Definition banner (s : State) : option string :=
  match error s with
  | Some message => if String.eqb message EmptyString then None else Some message
  | None => None
  end.

(** What the user can do to the widget; [ClickRemove n] is a click on the
    remove button of row [n], when the rendered list has such a row. *)
Inductive Gesture : Type :=
| DragOver
| DragLeave
| Drop (droppedFiles : list File)
| Choose (value : string) (selectedFiles : option (list File))
| ClickRemove (row : nat)
| Idle (ms : Z).

Definition gesture (p : Props) (w : Widget) (g : Gesture) : Handled :=
  match g with
  | DragOver => handleDragOver w
  | DragLeave => handleDragLeave w
  | Drop droppedFiles => handleDrop p w droppedFiles
  | Choose value selectedFiles =>
      handleFileInput p
        {| core := core w; isDragOver := isDragOver w; inputValue := value |}
        selectedFiles
  | ClickRemove row =>
      match nth_error (removeButtons (files (core w))) row with
      | Some index =>
          let o := removeFile p (core w) index in
          {| widget := {| core := state o; isDragOver := isDragOver w;
                          inputValue := inputValue w |};
             emitted := effects o; raised := thrown o |}
      | None => {| widget := w; emitted := []; raised := None |}
      end
  | Idle ms =>
      {| widget := {| core := elapse (core w) ms; isDragOver := isDragOver w;
                      inputValue := inputValue w |};
         emitted := []; raised := None |}
  end.

(** A sequence of gestures: the widget at the end, the effects and the
    exceptions raised on the way. *)
Fixpoint play (p : Props) (w : Widget) (gs : list Gesture)
    : Widget * list Effect * list JSError :=
  match gs with
  | [] => (w, [], [])
  | g :: gs' =>
      let h := gesture p w g in
      let '(w', es, xs) := play p (widget h) gs' in
      (w', emitted h ++ es,
       match raised h with Some x => [x] | None => [] end ++ xs)
  end.

(** The props the page of the application passes to the widget: the
    default limits and rules, with a callback that logs the files. *)
Definition pageProps : Props :=
  {| onFilesChange := true;
     maxFiles := 5;
     maxSize := 10 * 1024 * 1024;
     acceptedTypes := ["image/*"; "application/pdf"; ".doc"; ".docx"; ".txt"]%string |}.

(* ------------------------------------------------------------------ *)
(** ** Further readings of files, rules and calls *)

(** The candidate passes [validateFile]. *)
Definition passes (p : Props) (f : File) : bool :=
  match validateFile p f with
  | None => true
  | Some _ => false
  end.

(** [p] with other type rules. *)
Definition withRules (p : Props) (rules : list string) : Props :=
  {| onFilesChange := onFilesChange p; maxFiles := maxFiles p;
     maxSize := maxSize p; acceptedTypes := rules |}.

(** The string has one of the letters A to Z. *)
Fixpoint hasUpper (s : string) : bool :=
  match s with
  | EmptyString => false
  | String c s' =>
      ((65 <=? nat_of_ascii c) && (nat_of_ascii c <=? 90))%nat || hasUpper s'
  end.

(** An entry as [processFiles] leaves it in [files]: it passed
    [validateFile], and it has a preview exactly when its type starts with
    [image/]. *)
Definition wellFormedEntry (p : Props) (x : FileWithPreview) : Prop :=
  validateFile p (file x) = None
  /\ (preview x <> None <-> JSString.startsWith (type (file x)) "image/" = true).

(** No wait of the sequence goes back in time. *)
Definition forwardInTime (cs : list Call) : Prop :=
  Forall (fun c => match c with Wait ms => 0 <= ms | _ => True end) cs.

(** Every pending timer is due within the next 5000 ms, and an error is
    shown only while a timer is pending. *)
Definition timersPending (s : State) : Prop :=
  Forall (fun deadline => now s < deadline <= now s + 5000) (timers s)
  /\ (error s <> None -> timers s <> []).

(* ------------------------------------------------------------------ *)
(** * Properties *)

(** ** Strings *)

Section StringFacts.

Local Open Scope string_scope.
Import JSString.

Lemma append_assoc' (a b c : string) : (a ++ b) ++ c = a ++ b ++ c.
Proof.
  induction a as [|x a IH]; simpl; [reflexivity | now rewrite IH].
Qed.

(** A half rounds up, everything else goes to the nearest integer. *)
Lemma roundMB_nearest (m : Z) :
  -524288 <= m - 1048576 * roundMB m < 524288.
Proof.
  unfold roundMB.
  pose proof (Z.div_mod (m + 524288) 1048576 ltac:(lia)) as E.
  pose proof (Z.mod_pos_bound (m + 524288) 1048576 ltac:(lia)) as B.
  lia.
Qed.

Lemma includes_star (base : string) : includes (base ++ "/*") "*" = true.
Proof.
  induction base as [|c base IH]; [reflexivity|].
  cbn [append includes]. rewrite IH. apply orb_true_r.
Qed.

Lemma splitHead_base (base rest : string) :
  includes base "/" = false -> splitHead (base ++ String "/" rest) "/" = base.
Proof.
  induction base as [|c base IH]; intros H; [reflexivity|].
  cbn [append splitHead].
  cbn [includes] in H. apply orb_false_elim in H as [Hc Hrest].
  destruct (Ascii.eqb c "/") eqn:E.
  - apply Ascii.eqb_eq in E. subst c. simpl in Hc. now destruct base.
  - now rewrite IH.
Qed.

(** What the source computes for a rule [base/*]: a prefix test against
    [base] alone. *)
Lemma typeMatches_wildcard (fileType fileName base : string) :
  startsWith base "." = false ->
  includes base "/" = false ->
  typeMatches fileType fileName (base ++ "/*") = startsWith fileType base.
Proof.
  intros Hdot Hslash. unfold typeMatches.
  replace (startsWith (base ++ "/*") ".") with false.
  - rewrite includes_star. now rewrite splitHead_base.
  - destruct base as [|c base]; [reflexivity|].
    unfold startsWith in *. cbn [String.prefix append] in *.
    destruct (ascii_dec "." c); [now destruct base | reflexivity].
Qed.

End StringFacts.

(** ** The [forEach] loop *)

Section Loop.

Variable p : Props.
Variable accepted : list FileWithPreview.

Lemma forEach_cons (f : File) (fileList : list File) (b : Batch) :
  forEach p accepted (f :: fileList) b
  = forEach p accepted fileList (forEachBody p accepted b f).
Proof. reflexivity. Qed.

Lemma forEach_app (l1 l2 : list File) (b : Batch) :
  forEach p accepted (l1 ++ l2) b = forEach p accepted l2 (forEach p accepted l1 b).
Proof. apply fold_left_app. Qed.

(** [errors] grows by the rejections, in candidate order. *)
Lemma forEach_errors (fileList : list File) (b : Batch) :
  errors (forEach p accepted fileList b)
  = errors b ++ rejections p accepted fileList b.
Proof.
  revert b. induction fileList as [|f fileList IH]; intros b.
  - simpl. now rewrite app_nil_r.
  - rewrite forEach_cons, IH. cbn [rejections].
    unfold forEachBody at 1.
    destruct (rejection p accepted b f) as [message|].
    + cbn [errors]. now rewrite <- app_assoc.
    + now destruct (JSString.startsWith (type f) "image/").
Qed.

(** A rejected candidate changes nothing but [errors]. *)
Lemma forEachBody_rejected (b : Batch) (f : File) (message : string) :
  rejection p accepted b f = Some message ->
  forEachBody p accepted b f
  = {| newFiles := newFiles b; errors := errors b ++ [message];
       fresh := fresh b; performed := performed b |}.
Proof. intros H. unfold forEachBody. now rewrite H. Qed.

Lemma rejection_too_large (b : Batch) (f : File) :
  size f > maxSize p ->
  rejection p accepted b f = Some (tooLargeMessage (name f) (maxSize p)).
Proof.
  intros H. unfold rejection, validateFile.
  now replace (size f >? maxSize p) with true by (symmetry; apply Z.gtb_lt; lia).
Qed.

(** Only candidates that pass [validateFile] are staged. *)
Lemma forEach_staged_valid (fileList : list File) (b : Batch) (x : FileWithPreview) :
  In x (newFiles (forEach p accepted fileList b)) ->
  In x (newFiles b) \/ (In (file x) fileList /\ validateFile p (file x) = None).
Proof.
  revert b. induction fileList as [|f fileList IH]; intros b Hx.
  - now left.
  - rewrite forEach_cons in Hx. apply IH in Hx as [Hx | [Hin Hv]].
    + unfold forEachBody in Hx.
      destruct (rejection p accepted b f) as [message|] eqn:R; [now left|].
      assert (validateFile p f = None) as Hv.
      { unfold rejection in R. now destruct (validateFile p f). }
      destruct (JSString.startsWith (type f) "image/"); cbn [newFiles] in Hx;
        apply in_app_or in Hx as [Hx | [<- | []]]; auto;
        right; split; auto; now left.
    + right. split; [now right | assumption].
Qed.

End Loop.

Section LoopShape.

Variable p : Props.
Variable accepted : list FileWithPreview.

Lemma createdUrls_allocationsOf (xs : list FileWithPreview) :
  createdUrls (allocationsOf xs) = previewsOf xs.
Proof.
  induction xs as [|x xs IH]; [reflexivity|].
  unfold createdUrls, allocationsOf, previewsOf in *. cbn [flat_map].
  rewrite flat_map_app, IH. now destruct (preview x).
Qed.

Lemma stagedFrom_weaken (f : File) (fileList : list File) (xs : list FileWithPreview) :
  Forall (stagedFrom p fileList) xs -> Forall (stagedFrom p (f :: fileList)) xs.
Proof.
  apply Forall_impl. intros x (Hin & Hv & Hp).
  repeat split; try apply Hp; auto. now right.
Qed.

Lemma stagedFrom_head (f : File) (fileList : list File) (u : Url) :
  validateFile p f = None ->
  stagedFrom p (f :: fileList)
    (mkFileWithPreview f
       (if JSString.startsWith (type f) "image/" then Some u else None)).
Proof.
  intros Hv. unfold stagedFrom. cbn [file preview].
  split; [now left|]. split; [exact Hv|].
  destruct (JSString.startsWith (type f) "image/"); split; congruence.
Qed.

(** What one run of the loop adds to the batch. *)
Lemma forEach_shape (fileList : list File) (b : Batch) :
  exists staged : list FileWithPreview,
    newFiles (forEach p accepted fileList b) = newFiles b ++ staged
    /\ performed (forEach p accepted fileList b) = performed b ++ allocationsOf staged
    /\ previewsOf staged = seq (fresh b) (List.length (previewsOf staged))
    /\ fresh (forEach p accepted fileList b)
       = (fresh b + List.length (previewsOf staged))%nat
    /\ Forall (stagedFrom p fileList) staged
    /\ (List.length (rejections p accepted fileList b) + List.length staged
        = List.length fileList)%nat.
Proof.
  revert b. induction fileList as [|f fileList IH]; intros b.
  - exists []. cbn. rewrite !app_nil_r. repeat split; auto.
  - rewrite forEach_cons. destruct (IH (forEachBody p accepted b f))
      as (staged & Hn & Hp & Hu & Hf & Hs & Hl).
    cbn [rejections]. unfold forEachBody in *.
    destruct (rejection p accepted b f) as [message|] eqn:R.
    + exists staged. cbn [newFiles performed fresh] in *.
      repeat split; auto using stagedFrom_weaken.
      cbn [List.length app]. lia.
    + assert (validateFile p f = None) as Hv.
      { unfold rejection in R. now destruct (validateFile p f). }
      pose proof (stagedFrom_head f fileList (fresh b) Hv) as Hhead.
      destruct (JSString.startsWith (type f) "image/") eqn:I;
        cbn [newFiles performed fresh] in *.
      * exists (mkFileWithPreview f (Some (fresh b)) :: staged).
        rewrite Hn, Hp, Hf, <- !app_assoc.
        unfold previewsOf in *. cbn [flat_map preview app List.length seq].
        rewrite <- Hu.
        split; [reflexivity|]. split; [reflexivity|]. split; [reflexivity|].
        split; [lia|]. split; [|cbn [List.length app]; lia].
        constructor; auto using stagedFrom_weaken.
      * exists (mkFileWithPreview f None :: staged).
        rewrite Hn, Hp, Hf, <- !app_assoc.
        unfold previewsOf in *. cbn [flat_map preview app List.length seq].
        split; [reflexivity|]. split; [reflexivity|]. split; [exact Hu|].
        split; [reflexivity|]. split; [|cbn [List.length app]; lia].
        constructor; auto using stagedFrom_weaken.
Qed.

(** Once the capacity test succeeds it succeeds for the rest of the
    batch: nothing more is staged, and every later candidate gets a
    message of its own. *)
Lemma forEach_full (fileList : list File) (b : Batch) :
  Z.of_nat (List.length accepted + List.length (newFiles b)) >= maxFiles p ->
  forEach p accepted fileList b
  = {| newFiles := newFiles b;
       errors := errors b ++ map (rejectionWhenFull p) fileList;
       fresh := fresh b; performed := performed b |}.
Proof.
  intros Hfull. revert b Hfull.
  induction fileList as [|f fileList IH]; intros b Hfull.
  - cbn. rewrite app_nil_r. now destruct b.
  - rewrite forEach_cons.
    assert (rejection p accepted b f = Some (rejectionWhenFull p f)) as R.
    { unfold rejection, rejectionWhenFull.
      destruct (validateFile p f); [reflexivity|].
      now replace (Z.of_nat (List.length accepted + List.length (newFiles b))
                     >=? maxFiles p) with true by (symmetry; apply Z.geb_le; lia). }
    rewrite (forEachBody_rejected _ _ _ _ _ R), IH by exact Hfull.
    cbn [newFiles errors fresh performed map]. now rewrite <- app_assoc.
Qed.

End LoopShape.

(** ** One call of [processFiles] *)

Section ProcessFiles.

Variable p : Props.
Variable s : State.
Variable fileList : list File.

Let b : Batch := forEach p (files s) fileList (emptyBatch s).

Lemma processFiles_files :
  files (state (processFiles p s fileList)) = files s ++ newFiles b.
Proof.
  unfold processFiles. fold b.
  destruct (errors b), (newFiles b); cbn; now rewrite ?app_nil_r.
Qed.

Lemma processFiles_nextUrl :
  nextUrl (state (processFiles p s fileList)) = fresh b.
Proof.
  unfold processFiles. fold b. now destruct (errors b), (newFiles b).
Qed.

Lemma processFiles_now :
  now (state (processFiles p s fileList)) = now s.
Proof.
  unfold processFiles. fold b. now destruct (errors b), (newFiles b).
Qed.

Lemma processFiles_error :
  error (state (processFiles p s fileList)) = hd_error (errors b).
Proof.
  unfold processFiles. fold b. now destruct (errors b), (newFiles b).
Qed.

Lemma processFiles_timers :
  timers (state (processFiles p s fileList))
  = timers s ++ match errors b with [] => [] | _ :: _ => [now s + 5000] end.
Proof.
  unfold processFiles. fold b.
  destruct (errors b), (newFiles b); cbn; now rewrite ?app_nil_r.
Qed.

Lemma processFiles_effects :
  effects (processFiles p s fileList)
  = performed b
    ++ match errors b with [] => [] | _ :: _ => [SetTimeout 5000] end
    ++ match newFiles b with
       | [] => []
       | _ :: _ => callOnFilesChange p (files s ++ newFiles b)
       end.
Proof.
  unfold processFiles. fold b. now destruct (errors b), (newFiles b).
Qed.

Lemma processFiles_thrown : thrown (processFiles p s fileList) = None.
Proof.
  unfold processFiles. fold b. now destruct (errors b), (newFiles b).
Qed.

Lemma batch_errors : errors b = rejections p (files s) fileList (emptyBatch s).
Proof. unfold b. now rewrite forEach_errors. Qed.

Lemma batch_performed : performed b = allocationsOf (newFiles b).
Proof.
  unfold b. destruct (forEach_shape p (files s) fileList (emptyBatch s))
    as (staged & Hn & Hp & _). now rewrite Hn, Hp.
Qed.

End ProcessFiles.

Section EffectFacts.

Lemma createdUrls_app (es1 es2 : list Effect) :
  createdUrls (es1 ++ es2) = createdUrls es1 ++ createdUrls es2.
Proof. apply flat_map_app. Qed.

Lemma revokedUrls_app (es1 es2 : list Effect) :
  revokedUrls (es1 ++ es2) = revokedUrls es1 ++ revokedUrls es2.
Proof. apply flat_map_app. Qed.

Lemma notifications_app (es1 es2 : list Effect) :
  notifications (es1 ++ es2) = notifications es1 ++ notifications es2.
Proof. apply flat_map_app. Qed.

Lemma scheduled_app (es1 es2 : list Effect) :
  scheduled (es1 ++ es2) = scheduled es1 ++ scheduled es2.
Proof. apply flat_map_app. Qed.

Lemma previewsOf_app (xs ys : list FileWithPreview) :
  previewsOf (xs ++ ys) = previewsOf xs ++ previewsOf ys.
Proof. apply flat_map_app. Qed.

Lemma allocationsOf_only_create (xs : list FileWithPreview) :
  revokedUrls (allocationsOf xs) = []
  /\ notifications (allocationsOf xs) = []
  /\ scheduled (allocationsOf xs) = [].
Proof.
  induction xs as [|x xs (IH1 & IH2 & IH3)]; [now repeat split|].
  unfold allocationsOf in *. cbn [flat_map].
  rewrite revokedUrls_app, notifications_app, scheduled_app, IH1, IH2, IH3.
  now destruct (preview x).
Qed.

Lemma callOnFilesChange_only_notifies (p : Props) (xs : list FileWithPreview) :
  createdUrls (callOnFilesChange p xs) = []
  /\ revokedUrls (callOnFilesChange p xs) = []
  /\ scheduled (callOnFilesChange p xs) = [].
Proof. unfold callOnFilesChange. now destruct (onFilesChange p). Qed.

(** The tail of [processFiles] allocates and releases nothing. *)
Lemma timer_and_callback_touch_no_url (p : Props) (es : list string)
    (ns xs : list FileWithPreview) :
  let tail :=
    match es with [] => [] | _ :: _ => [SetTimeout 5000] end
    ++ match ns with [] => [] | _ :: _ => callOnFilesChange p xs end in
  createdUrls tail = [] /\ revokedUrls tail = [].
Proof.
  unfold callOnFilesChange. now destruct es, ns, (onFilesChange p).
Qed.

End EffectFacts.

(** ** validateFile *)

Section ValidateFile.

Local Open Scope string_scope.
Import JSString.

Lemma append_cancel (a x y : string) : a ++ x = a ++ y -> x = y.
Proof.
  induction a as [|c a IH]; cbn [append]; intros H; [exact H|].
  injection H as H. auto.
Qed.

Lemma tooLarge_not_unsupported (fileName : string) (limit : Z) :
  tooLargeMessage fileName limit <> unsupportedMessage fileName.
Proof.
  unfold tooLargeMessage, unsupportedMessage. intros H.
  apply (append_cancel "File ") in H. apply append_cancel in H.
  apply append_cancel in H. discriminate H.
Qed.

Lemma capacity_not_validation (limit maxSize : Z) (fileName : string) :
  capacityMessage limit <> tooLargeMessage fileName maxSize
  /\ capacityMessage limit <> unsupportedMessage fileName.
Proof. split; discriminate. Qed.

Lemma rejections_too_large (p : Props) (accepted : list FileWithPreview)
    (fileList : list File) (b : Batch) (f : File) :
  size f > maxSize p ->
  In f fileList ->
  In (tooLargeMessage (name f) (maxSize p)) (rejections p accepted fileList b).
Proof.
  intros Hsize. revert b.
  induction fileList as [|g fileList IH]; intros b Hin; [contradiction|].
  cbn [rejections]. apply in_or_app. destruct Hin as [-> | Hin].
  - left. rewrite rejection_too_large by exact Hsize. now left.
  - right. now apply IH.
Qed.

(** C9. A candidate larger than [maxSize] is rejected by [validateFile]
    with the too-large message, whatever the type rules are (the size
    test comes first, so the message is never the unsupported-type one);
    the message contains the file's name and the limit in MB, rounded to
    the nearest integer; [processFiles] never stages the candidate, so
    it is never appended to [files], and records the message. *)
Theorem too_large_is_rejected (p : Props) (s : State) (fileList : list File) (f : File) :
  size f > maxSize p ->
  let message := tooLargeMessage (name f) (maxSize p) in
  let b := forEach p (files s) fileList (emptyBatch s) in
  validateFile p f = Some message
  /\ message <> unsupportedMessage (name f)
  /\ occursIn (name f) message
  /\ occursIn (ofNumber (roundMB (maxSize p)) ++ "MB") message
  /\ -524288 <= maxSize p - 1048576 * roundMB (maxSize p) < 524288
  /\ ~ In f (stagedFiles b)
  /\ files (state (processFiles p s fileList)) = (files s ++ newFiles b)%list
  /\ (In f fileList -> In message (errors b)).
Proof.
  intros Hsize message b.
  assert (validateFile p f = Some message) as Hv.
  { unfold validateFile.
    now replace (size f >? maxSize p) with true by (symmetry; apply Z.gtb_lt; lia). }
  split; [exact Hv|].
  split; [apply tooLarge_not_unsupported|].
  split. { exists ("File " ++ dquote), (dquote ++ " is too large. Maximum size is "
              ++ ofNumber (roundMB (maxSize p)) ++ "MB."). reflexivity. }
  split. { exists ("File " ++ dquote ++ name f ++ dquote ++ " is too large. Maximum size is "),
             ".".
           unfold message, tooLargeMessage.
           now rewrite !append_assoc'. }
  split; [apply roundMB_nearest|].
  split.
  { unfold stagedFiles. intros Hin. apply in_map_iff in Hin as (x & <- & Hx).
    apply forEach_staged_valid in Hx as [[] | [_ Hnone]]. congruence. }
  split; [apply processFiles_files|].
  intros Hin. unfold b. rewrite forEach_errors. cbn [errors emptyBatch app].
  now apply rejections_too_large.
Qed.

Lemma too_large_is_rejected_witness :
  validateFile defaultProps Sample.elevenMB
  = Some (tooLargeMessage "movie.png" 10485760).
Proof.
  exact (proj1 (too_large_is_rejected defaultProps initialState
                  [Sample.elevenMB] Sample.elevenMB eq_refl)).
Defined.

(** C2. With the single rule [image/*], a file whose declared type is
    [images/png], which does not start with [image/], is matched by the
    wildcard rule and passes [validateFile]: the source compares with
    [image], the part of the rule before the slash. *)
Theorem wildcard_matches_without_slash :
  startsWith (type Sample.odd) "image/" = false
  /\ acceptedTypes Sample.props = ["image/*"]
  /\ typeMatches (type Sample.odd) (toLowerCase (name Sample.odd)) "image/*" = true
  /\ validateFile Sample.props Sample.odd = None.
Proof.
  split; [reflexivity|]. split; [reflexivity|]. split; [|reflexivity].
  now rewrite (typeMatches_wildcard _ _ "image").
Qed.

End ValidateFile.

(** ** Capacity inside a batch *)

Section CapacityInBatch.

(** C1, as stated, fails: with room for one file, [imgC] passes
    validation and meets the capacity test, yet the candidate after it,
    [huge], is still examined and recorded as too large. *)
Lemma capacity_does_not_end_the_batch :
  let b1 := forEach Sample.propsOne [] [Sample.imgA] (emptyBatch initialState) in
  validateFile Sample.propsOne Sample.imgC = None
  /\ Z.of_nat (List.length (@nil FileWithPreview) + List.length (newFiles b1))
     >= maxFiles Sample.propsOne
  /\ errors (forEach Sample.propsOne [] [Sample.imgA; Sample.imgC; Sample.huge]
               (emptyBatch initialState))
     = [capacityMessage 1; tooLargeMessage "huge.png" 1000]
  /\ tooLargeMessage "huge.png" 1000 <> capacityMessage 1.
Proof.
  split; [reflexivity|]. split; [vm_compute; discriminate|].
  split; [reflexivity|]. discriminate.
Qed.

(** C1, amended. When a candidate [c] passes validation but the capacity
    test holds, [c] gets the capacity message and the loop goes on: it
    stages nothing more and allocates nothing more, each later candidate
    that passes validation also gets the capacity message, and each
    later candidate that fails validation gets its own too-large or
    unsupported-type message. *)
Theorem capacity_reached_in_batch (p : Props) (accepted : list FileWithPreview)
    (pre post : list File) (c : File) (b0 : Batch) :
  validateFile p c = None ->
  Z.of_nat (List.length accepted
            + List.length (newFiles (forEach p accepted pre b0))) >= maxFiles p ->
  let b1 := forEach p accepted pre b0 in
  forEach p accepted (pre ++ c :: post) b0
  = {| newFiles := newFiles b1;
       errors := errors b1 ++ capacityMessage (maxFiles p)
                   :: map (fun f => match validateFile p f with
                                    | Some validationError => validationError
                                    | None => capacityMessage (maxFiles p)
                                    end) post;
       fresh := fresh b1;
       performed := performed b1 |}.
Proof.
  intros Hvalid Hfull b1. rewrite forEach_app. fold b1.
  rewrite forEach_full by exact Hfull.
  cbn [map]. unfold rejectionWhenFull at 1. now rewrite Hvalid.
Qed.

Lemma capacity_reached_in_batch_witness :
  errors (forEach Sample.propsOne []
            ([Sample.imgA] ++ Sample.imgC :: [Sample.huge; Sample.imgD])
            (emptyBatch initialState))
  = [capacityMessage 1; tooLargeMessage "huge.png" 1000; capacityMessage 1].
Proof.
  rewrite (capacity_reached_in_batch Sample.propsOne [] [Sample.imgA]
             [Sample.huge; Sample.imgD] Sample.imgC (emptyBatch initialState)).
  - reflexivity.
  - reflexivity.
  - vm_compute. discriminate.
Defined.

End CapacityInBatch.

(** ** Previews, the error banner and the notification *)

Section AfterProcessFiles.

Variable p : Props.
Variable s : State.
Variable fileList : list File.

(** C10. The blob URLs [processFiles] allocates are exactly the previews
    of the entries it stages, one allocation per entry; every staged
    entry is a candidate that passed validation, and it has a preview
    exactly when its type starts with [image/]; each candidate is either
    staged or rejected; and a candidate that is rejected, for whatever
    reason, leaves the allocations and the next URL as they were. *)
Theorem previews_only_for_staged_images :
  let b := forEach p (files s) fileList (emptyBatch s) in
  let o := processFiles p s fileList in
  createdUrls (effects o) = previewsOf (newFiles b)
  /\ (forall f u, In (CreateObjectURL f u) (effects o) ->
                  In (mkFileWithPreview f (Some u)) (newFiles b))
  /\ Forall (stagedFrom p fileList) (newFiles b)
  /\ (List.length (errors b) + List.length (newFiles b) = List.length fileList)%nat
  /\ (forall b0 f,
        match rejection p (files s) b0 f with
        | Some _ =>
            performed (forEachBody p (files s) b0 f) = performed b0
            /\ fresh (forEachBody p (files s) b0 f) = fresh b0
            /\ newFiles (forEachBody p (files s) b0 f) = newFiles b0
        | None => True
        end).
Proof.
  intros b o.
  destruct (forEach_shape p (files s) fileList (emptyBatch s))
    as (staged & Hn & Hp & Hu & Hf & Hs & Hl).
  fold b in Hn, Hp, Hf. cbn [emptyBatch newFiles performed fresh app] in *.
  assert (effects o
          = allocationsOf staged
            ++ match errors b with [] => [] | _ :: _ => [SetTimeout 5000] end
            ++ match newFiles b with
               | [] => []
               | _ :: _ => callOnFilesChange p (files s ++ newFiles b)
               end) as He.
  { unfold o. rewrite processFiles_effects. fold b. now rewrite Hp. }
  split.
  { rewrite He, createdUrls_app, createdUrls_allocationsOf, Hn.
    destruct (timer_and_callback_touch_no_url p (errors b) staged
                (files s ++ staged)) as (-> & _).
    apply app_nil_r. }
  split.
  { intros f u Hin. rewrite He, Hn in Hin. rewrite Hn.
    apply in_app_or in Hin as [Hin | Hin].
    - unfold allocationsOf in Hin. apply in_flat_map in Hin as (x & Hx & Hin).
      destruct x as [g [v|]]; cbn in Hin; [|contradiction].
      destruct Hin as [Hin | []]. now injection Hin as -> ->.
    - apply in_app_or in Hin as [Hin | Hin].
      + destruct (errors b); [contradiction|].
        destruct Hin as [Hin | []]. discriminate Hin.
      + destruct staged; [contradiction|].
        unfold callOnFilesChange in Hin.
        destruct (onFilesChange p); [|contradiction].
        destruct Hin as [Hin | []]. discriminate Hin. }
  split; [now rewrite Hn|].
  split.
  { rewrite Hn. unfold b. rewrite forEach_errors. cbn [emptyBatch errors app].
    exact Hl. }
  intros b0 f. destruct (rejection p (files s) b0 f) as [message|] eqn:R; [|exact I].
  now rewrite (forEachBody_rejected _ _ _ _ _ R).
Qed.

(** C7. The messages of the rejected candidates being taken in candidate
    order: when there is at least one, [error] becomes the first of them
    and nothing else, one timer of 5000 ms is started whose callback
    clears [error] when it runs; when there is none, [error] is cleared
    at once and no timer is started. *)
Theorem lastError_is_first_rejection :
  let o := processFiles p s fileList in
  match rejections p (files s) fileList (emptyBatch s) with
  | first :: _ =>
      error (state o) = Some first
      /\ scheduled (effects o) = [5000]
      /\ timers (state o) = timers s ++ [now s + 5000]
      /\ error (elapse (state o) 5000) = None
  | [] =>
      error (state o) = None
      /\ scheduled (effects o) = []
      /\ timers (state o) = timers s
  end.
Proof.
  intros o.
  pose proof (processFiles_error p s fileList) as He.
  pose proof (processFiles_timers p s fileList) as Ht.
  pose proof (processFiles_effects p s fileList) as Hf.
  pose proof (processFiles_now p s fileList) as Hn.
  rewrite batch_performed in Hf. rewrite batch_errors in He, Ht, Hf.
  fold o in He, Ht, Hf, Hn.
  assert (scheduled (effects o)
          = match rejections p (files s) fileList (emptyBatch s) with
            | [] => []
            | _ :: _ => [5000]
            end) as Hs.
  { rewrite Hf, !scheduled_app.
    destruct (allocationsOf_only_create
                (newFiles (forEach p (files s) fileList (emptyBatch s))))
      as (_ & _ & ->).
    assert (forall xs, scheduled
              (match newFiles (forEach p (files s) fileList (emptyBatch s)) with
               | [] => []
               | _ :: _ => callOnFilesChange p xs
               end) = []) as ->.
    { intros xs. destruct (newFiles _); [reflexivity|].
      apply callOnFilesChange_only_notifies. }
    now destruct (rejections p (files s) fileList (emptyBatch s)). }
  destruct (rejections p (files s) fileList (emptyBatch s)) as [|first rest].
  - rewrite app_nil_r in Ht. auto.
  - repeat split; auto.
    unfold elapse. cbn [error]. rewrite Ht, Hn, existsb_app. cbn [existsb].
    unfold due at 2. rewrite Z.leb_refl. cbn. now rewrite orb_true_r.
Qed.

(** What the callback receives from [processFiles]. *)
Lemma processFiles_notifications :
  onFilesChange p = true ->
  notifications (effects (processFiles p s fileList))
  = match newFiles (forEach p (files s) fileList (emptyBatch s)) with
    | [] => []
    | _ :: _ => [files (state (processFiles p s fileList))]
    end.
Proof.
  intros Hcb. rewrite processFiles_files, processFiles_effects, batch_performed.
  rewrite !notifications_app.
  destruct (allocationsOf_only_create
              (newFiles (forEach p (files s) fileList (emptyBatch s))))
    as (_ & -> & _).
  unfold callOnFilesChange. rewrite Hcb.
  now destruct (errors _), (newFiles _).
Qed.

End AfterProcessFiles.

(** ** removeFile *)

Section RemoveFile.

Context {A : Type}.

Lemma at_in_range (l : list A) (index : Z) :
  0 <= index < Z.of_nat (List.length l) -> exists x, at_ l index = Some x.
Proof.
  intros H. unfold at_.
  replace (index <? 0) with false by (symmetry; apply Z.ltb_ge; lia).
  destruct (nth_error l (Z.to_nat index)) as [x|] eqn:E; [now exists x|].
  apply nth_error_None in E. lia.
Qed.

Lemma at_out_of_range (l : list A) (index : Z) :
  index < 0 \/ Z.of_nat (List.length l) <= index -> at_ l index = None.
Proof.
  intros H. unfold at_. destruct (index <? 0) eqn:E; [reflexivity|].
  apply Z.ltb_ge in E. apply nth_error_None. lia.
Qed.

Lemma at_Some (l : list A) (index : Z) (x : A) :
  at_ l index = Some x ->
  0 <= index < Z.of_nat (List.length l) /\ nth_error l (Z.to_nat index) = Some x.
Proof.
  unfold at_. destruct (index <? 0) eqn:E; [discriminate|].
  apply Z.ltb_ge in E. intros H. split; [|exact H].
  assert (nth_error l (Z.to_nat index) <> None) as N by congruence.
  apply nth_error_Some in N. lia.
Qed.

(** No position of the list is [index]: the filter keeps everything. *)
Lemma filterIndexed_keeps_all (l : list A) (k index : Z) :
  index < k \/ k + Z.of_nat (List.length l) <= index ->
  filterIndexed (fun _ i => negb (i =? index)) l k = l.
Proof.
  revert k. induction l as [|x l IH]; intros k H; [reflexivity|].
  cbn [filterIndexed List.length] in *.
  replace (k =? index) with false by (symmetry; apply Z.eqb_neq; lia).
  cbn [negb]. rewrite IH by lia. reflexivity.
Qed.

(** Position [index] holds [x]: the filter drops that one element. *)
Lemma filterIndexed_drops_one (l : list A) (k index : Z) (x : A) :
  k <= index ->
  nth_error l (Z.to_nat (index - k)) = Some x ->
  exists l1 l2 : list A,
    l = l1 ++ x :: l2
    /\ Z.of_nat (List.length l1) = index - k
    /\ filterIndexed (fun _ i => negb (i =? index)) l k = l1 ++ l2.
Proof.
  revert k. induction l as [|y l IH]; intros k Hk Hx.
  - now destruct (Z.to_nat (index - k)).
  - cbn [filterIndexed]. destruct (Z.eq_dec k index) as [-> | Hne].
    + rewrite Z.sub_diag in Hx. cbn in Hx. injection Hx as ->.
      exists [], l. rewrite Z.eqb_refl. cbn [negb app List.length].
      rewrite filterIndexed_keeps_all by lia. repeat split; lia.
    + replace (k =? index) with false by (symmetry; apply Z.eqb_neq; lia).
      cbn [negb].
      replace (Z.to_nat (index - k)) with (S (Z.to_nat (index - (k + 1)))) in Hx by lia.
      cbn [nth_error] in Hx.
      destruct (IH (k + 1) ltac:(lia) Hx) as (l1 & l2 & -> & Hlen & ->).
      exists (y :: l1), l2. cbn [app List.length]. repeat split; lia.
Qed.

End RemoveFile.

Section RemoveFileCalls.

Variable p : Props.
Variable s : State.

Lemma removeFile_in_range (index : Z) (x : FileWithPreview) :
  at_ (files s) index = Some x ->
  exists l1 l2 : list FileWithPreview,
    files s = l1 ++ x :: l2
    /\ Z.of_nat (List.length l1) = index
    /\ removeFile p s index
       = {| state := {| files := l1 ++ l2; error := error s; nextUrl := nextUrl s;
                        now := now s; timers := timers s |};
            effects := match preview x with
                       | Some u => [RevokeObjectURL u]
                       | None => []
                       end ++ callOnFilesChange p (l1 ++ l2);
            thrown := None |}.
Proof.
  intros Hat. destruct (at_Some _ _ _ Hat) as [Hrange Hnth].
  destruct (filterIndexed_drops_one (files s) 0 index x ltac:(lia)) as (l1 & l2 & Hl & Hlen & Hf).
  { now rewrite Z.sub_0_r. }
  exists l1, l2. split; [exact Hl|]. split; [lia|].
  unfold removeFile. now rewrite Hat, Hf.
Qed.

Lemma removeFile_undefined (index : Z) :
  at_ (files s) index = None ->
  removeFile p s index = {| state := s; effects := []; thrown := Some TypeError |}.
Proof. intros H. unfold removeFile. now rewrite H. Qed.

(** C3, as stated, fails: on the two accepted files of the scenario,
    [removeFile(5)] does not return normally; reading [preview] of the
    missing entry raises a [TypeError] that nothing catches. *)
Lemma removeFile_out_of_range_throws :
  List.length (files Sample.twoAccepted) = 2%nat
  /\ thrown (removeFile Sample.props Sample.twoAccepted 5) = Some TypeError.
Proof. split; reflexivity. Qed.

(** C3, amended. For an index outside of [0 .. length - 1], [removeFile]
    changes neither [files] nor any preview, releases no blob URL and
    does not call [onFilesChange]; it is not handled inside the
    operation: the call ends with an uncaught [TypeError]. *)
Theorem removeFile_out_of_range (index : Z) :
  index < 0 \/ Z.of_nat (List.length (files s)) <= index ->
  removeFile p s index = {| state := s; effects := []; thrown := Some TypeError |}.
Proof.
  intros H. apply removeFile_undefined, at_out_of_range, H.
Qed.

(** C6. With a callback supplied: [processFiles] appends what it staged
    and calls [onFilesChange] once, with the whole new [files], when it
    staged something, and not at all when it staged nothing;
    [removeFile] with an index in range shortens [files] by one and
    calls [onFilesChange] once, with the whole new [files]. *)
Theorem onFilesChange_once_per_change :
  onFilesChange p = true ->
  (forall fileList : list File,
      let o := processFiles p s fileList in
      let b := forEach p (files s) fileList (emptyBatch s) in
      files (state o) = files s ++ newFiles b
      /\ notifications (effects o)
         = match newFiles b with
           | [] => []
           | _ :: _ => [files (state o)]
           end
      /\ thrown o = None)
  /\ (forall index : Z,
      let o := removeFile p s index in
      if (0 <=? index) && (index <? Z.of_nat (List.length (files s)))
      then notifications (effects o) = [files (state o)]
           /\ (List.length (files (state o)) + 1 = List.length (files s))%nat
           /\ thrown o = None
      else notifications (effects o) = []
           /\ files (state o) = files s).
Proof.
  intros Hcb. split.
  - intros fileList o b. split; [apply processFiles_files|].
    split; [now apply processFiles_notifications | apply processFiles_thrown].
  - intros index o.
    destruct ((0 <=? index) && (index <? Z.of_nat (List.length (files s)))) eqn:R.
    + apply andb_true_iff in R as [R1 R2].
      apply Z.leb_le in R1. apply Z.ltb_lt in R2.
      destruct (at_in_range (files s) index ltac:(lia)) as [x Hx].
      destruct (removeFile_in_range index x Hx) as (l1 & l2 & Hl & Hlen & Ho).
      unfold o. rewrite Ho, Hl. cbn [state effects thrown files].
      rewrite notifications_app. unfold callOnFilesChange. rewrite Hcb.
      rewrite !length_app. cbn [List.length].
      destruct (preview x); cbn; repeat split; lia.
    + apply andb_false_iff in R.
      unfold o. rewrite removeFile_undefined; [now split|].
      apply at_out_of_range.
      destruct R as [R | R]; [apply Z.leb_gt in R | apply Z.ltb_ge in R]; lia.
Qed.

End RemoveFileCalls.

Lemma removeFile_out_of_range_witness :
  removeFile Sample.props Sample.twoAccepted 5
  = {| state := Sample.twoAccepted; effects := []; thrown := Some TypeError |}.
Proof.
  apply (removeFile_out_of_range Sample.props Sample.twoAccepted 5).
  right. vm_compute. discriminate.
Defined.

Lemma onFilesChange_once_per_change_witness :
  notifications (effects (removeFile Sample.props Sample.twoAccepted 0))
  = [[mkFileWithPreview Sample.imgC (Some 1%nat)]]
  /\ notifications (effects (processFiles Sample.props initialState [Sample.docB])) = [].
Proof.
  destruct (onFilesChange_once_per_change Sample.props Sample.twoAccepted eq_refl)
    as [_ Hremove].
  destruct (onFilesChange_once_per_change Sample.props initialState eq_refl)
    as [Hsubmit _].
  split.
  - exact (proj1 (Hremove 0)).
  - exact (proj1 (proj2 (Hsubmit [Sample.docB]))).
Defined.

(** ** Sequences of calls *)

Section Runs.

Variable p : Props.

Lemma run_cons (s : State) (c : Call) (cs : list Call) :
  run p s (c :: cs)
  = (fst (run p (state (perform p s c)) cs),
     effects (perform p s c) ++ snd (run p (state (perform p s c)) cs)).
Proof. cbn [run]. now destruct (run p (state (perform p s c)) cs). Qed.

(** A property of the state and of the effects so far that every call
    preserves holds after any sequence of calls. *)
Lemma run_invariant (Inv : State -> list Effect -> Prop) :
  (forall s past c,
      Inv s past -> Inv (state (perform p s c)) (past ++ effects (perform p s c))) ->
  forall cs s past,
    Inv s past -> Inv (fst (run p s cs)) (past ++ snd (run p s cs)).
Proof.
  intros Hstep. induction cs as [|c cs IH]; intros s past H.
  - cbn. now rewrite app_nil_r.
  - rewrite run_cons. cbn [fst snd]. rewrite app_assoc. apply IH, Hstep, H.
Qed.

(** *** The number of accepted files *)

Lemma rejection_None (accepted : list FileWithPreview) (b : Batch) (f : File) :
  rejection p accepted b f = None ->
  validateFile p f = None
  /\ Z.of_nat (List.length accepted + List.length (newFiles b)) < maxFiles p.
Proof.
  unfold rejection. destruct (validateFile p f); [discriminate|].
  destruct (_ >=? _) eqn:E; [discriminate|]. intros _. split; [reflexivity|].
  rewrite Z.geb_leb in E. apply Z.leb_gt in E. exact E.
Qed.

Lemma forEach_within_capacity (accepted : list FileWithPreview)
    (fileList : list File) (b : Batch) :
  Z.of_nat (List.length accepted + List.length (newFiles b)) <= maxFiles p ->
  Z.of_nat (List.length accepted
            + List.length (newFiles (forEach p accepted fileList b))) <= maxFiles p.
Proof.
  revert b. induction fileList as [|f fileList IH]; intros b H; [exact H|].
  rewrite forEach_cons. apply IH. unfold forEachBody.
  destruct (rejection p accepted b f) eqn:R; [exact H|].
  apply rejection_None in R as [_ R].
  destruct (JSString.startsWith (type f) "image/"); cbn [newFiles];
    rewrite length_app; cbn [List.length]; lia.
Qed.

Lemma perform_within_capacity (s : State) (c : Call) :
  Z.of_nat (List.length (files s)) <= maxFiles p ->
  Z.of_nat (List.length (files (state (perform p s c)))) <= maxFiles p.
Proof.
  intros H. destruct c as [fileList | index | ms]; cbn [perform state elapse files].
  - rewrite processFiles_files, length_app.
    apply forEach_within_capacity. cbn [emptyBatch newFiles List.length]. lia.
  - destruct (at_ (files s) index) as [x|] eqn:E.
    + destruct (removeFile_in_range p s index x E) as (l1 & l2 & Hl & _ & ->).
      cbn [state files]. rewrite Hl in H. rewrite length_app in *.
      cbn [List.length] in H. lia.
    + now rewrite removeFile_undefined.
  - exact H.
Qed.

Lemma run_within_capacity (cs : list Call) (s : State) :
  Z.of_nat (List.length (files s)) <= maxFiles p ->
  Z.of_nat (List.length (files (fst (run p s cs)))) <= maxFiles p.
Proof.
  intros H.
  apply (run_invariant
           (fun s _ => Z.of_nat (List.length (files s)) <= maxFiles p)) with (past := []);
    auto using perform_within_capacity.
Qed.

(** C8. For a limit [maxFiles] that is not negative, after any sequence
    of batches, removals and waits from the initial state, [files] has
    at most [maxFiles] elements; and in a state where it has exactly
    [maxFiles], a further batch stages nothing, leaves [files] as it is,
    does not call [onFilesChange], and records for each candidate its
    validation message or, when it passes validation, the capacity
    message. *)
Theorem capacity_invariant (cs : list Call) (fileList : list File) :
  0 <= maxFiles p ->
  let s := fst (run p initialState cs) in
  let b := forEach p (files s) fileList (emptyBatch s) in
  Z.of_nat (List.length (files s)) <= maxFiles p
  /\ (Z.of_nat (List.length (files s)) = maxFiles p ->
      newFiles b = []
      /\ files (state (processFiles p s fileList)) = files s
      /\ notifications (effects (processFiles p s fileList)) = []
      /\ errors b = map (fun f => match validateFile p f with
                                  | Some validationError => validationError
                                  | None => capacityMessage (maxFiles p)
                                  end) fileList).
Proof.
  intros Hpos s b. split.
  - apply run_within_capacity. cbn. lia.
  - intros Hfull.
    assert (b = {| newFiles := []; errors := map (rejectionWhenFull p) fileList;
                   fresh := nextUrl s; performed := [] |}) as Hb.
    { unfold b. rewrite forEach_full; [reflexivity|].
      cbn [emptyBatch newFiles List.length]. lia. }
    split; [now rewrite Hb|].
    split; [rewrite processFiles_files; fold b; rewrite Hb; apply app_nil_r|].
    split; [|now rewrite Hb].
    rewrite processFiles_effects. fold b. rewrite Hb. cbn [performed newFiles].
    now destruct (errors _).
Qed.

(** *** Blob URLs *)

Lemma perform_urlsAccounted (s : State) (past : list Effect) (c : Call) :
  urlsAccounted s past ->
  urlsAccounted (state (perform p s c)) (past ++ effects (perform p s c)).
Proof.
  intros [Hc Hp]. destruct c as [fileList | index | ms]; cbn [perform state effects].
  - destruct (forEach_shape p (files s) fileList (emptyBatch s))
      as (staged & Hn & Hperf & Hu & Hf & _).
    cbn [emptyBatch newFiles performed fresh app] in *.
    unfold urlsAccounted.
    rewrite processFiles_files, processFiles_nextUrl, processFiles_effects.
    rewrite Hn, Hperf, Hf.
    rewrite !createdUrls_app, !revokedUrls_app, createdUrls_allocationsOf.
    destruct (timer_and_callback_touch_no_url p
                (errors (forEach p (files s) fileList (emptyBatch s))) staged
                (files s ++ staged)) as (Ht1 & Ht2).
    cbv zeta in Ht1, Ht2. rewrite <- createdUrls_app, <- revokedUrls_app, Ht1, Ht2.
    destruct (allocationsOf_only_create staged) as (-> & _).
    rewrite !app_nil_r, previewsOf_app, Hc, seq_app. cbn [Nat.add].
    rewrite <- Hu. split; [reflexivity|].
    rewrite app_assoc. now apply Permutation_app_tail.
  - destruct (at_ (files s) index) as [x|] eqn:E.
    + destruct (removeFile_in_range p s index x E) as (l1 & l2 & Hl & _ & ->).
      unfold urlsAccounted. cbn [state effects files nextUrl].
      destruct (callOnFilesChange_only_notifies p (l1 ++ l2)) as (Hk1 & Hk2 & _).
      rewrite !createdUrls_app, !revokedUrls_app, Hk1, Hk2, !app_nil_r.
      rewrite Hl in Hp. rewrite !previewsOf_app in *.
      change (previewsOf (x :: l2))
        with (match preview x with Some u => [u] | None => [] end ++ previewsOf l2) in Hp.
      destruct (preview x) as [u|]; cbn [createdUrls revokedUrls flat_map app] in *.
      * rewrite app_nil_r. split; [exact Hc|].
        rewrite Hp. rewrite <- !app_assoc. apply Permutation_app_head.
        cbn [app]. symmetry. apply Permutation_middle.
      * rewrite !app_nil_r. now split.
    + rewrite removeFile_undefined by exact E.
      cbn [state effects]. rewrite app_nil_r. now split.
  - rewrite app_nil_r. exact (conj Hc Hp).
Qed.

Lemma run_urlsAccounted (cs : list Call) :
  urlsAccounted (fst (run p initialState cs)) (snd (run p initialState cs)).
Proof.
  apply (run_invariant urlsAccounted perform_urlsAccounted cs initialState []).
  split; [reflexivity | apply Permutation_refl].
Qed.

End Runs.

(** ** Release of the previews *)

Section Release.

Lemma NoDup_app_disjoint {A : Type} (l1 l2 : list A) (x : A) :
  NoDup (l1 ++ l2) -> In x l1 -> ~ In x l2.
Proof.
  induction l1 as [|y l1 IH]; cbn [app]; intros Hnd Hin; [contradiction|].
  inversion Hnd as [|? ? Hy Hnd']; subst. destruct Hin as [-> | Hin].
  - intros Hx. apply Hy, in_or_app. now right.
  - now apply IH.
Qed.

(** C4, as stated, fails: after [imgA] is accepted and the widget is
    unmounted, the blob URL created for its preview has not been
    revoked, by a removal or by the unmounting. *)
Lemma unmount_releases_nothing :
  let r := run Sample.props initialState [SubmitBatch [Sample.imgA]] in
  createdUrls (snd r ++ unmount (fst r)) = [0%nat]
  /\ previewsOf (files (fst r)) = [0%nat]
  /\ revokedUrls (snd r ++ unmount (fst r)) = [].
Proof. repeat split. Qed.

(** C4, amended. After any sequence of calls from the initial state: no
    blob URL is created twice or revoked twice; only created URLs are
    revoked, and a revoked URL is no longer the preview of an accepted
    file; a created URL that was not revoked is the preview of exactly
    one accepted file; each [removeFile] revokes the preview of the
    entry it removes and nothing else. Unmounting the widget revokes
    nothing: the previews of the files still accepted stay allocated. *)
Theorem previews_released_at_most_once (p : Props) (cs : list Call) :
  let s := fst (run p initialState cs) in
  let es := snd (run p initialState cs) in
  NoDup (createdUrls es)
  /\ NoDup (revokedUrls es)
  /\ NoDup (previewsOf (files s))
  /\ (forall u, In u (revokedUrls es) ->
                In u (createdUrls es) /\ ~ In u (previewsOf (files s)))
  /\ (forall u, In u (createdUrls es) <->
                In u (revokedUrls es) \/ In u (previewsOf (files s)))
  /\ (forall (s0 : State) (index : Z),
        revokedUrls (effects (removeFile p s0 index))
        = match at_ (files s0) index with
          | Some x => previewsOf [x]
          | None => []
          end)
  /\ revokedUrls (es ++ unmount s) = revokedUrls es.
Proof.
  intros s es. destruct (run_urlsAccounted p cs) as [Hc Hp]. fold s es in Hc, Hp.
  assert (NoDup (revokedUrls es ++ previewsOf (files s))) as Hnd.
  { eapply Permutation_NoDup; [exact Hp | apply seq_NoDup]. }
  assert (forall u, In u (createdUrls es) <->
                    In u (revokedUrls es) \/ In u (previewsOf (files s))) as Hiff.
  { intros u. rewrite Hc. split; intros H.
    - apply in_app_or. eapply Permutation_in; [exact Hp | exact H].
    - eapply Permutation_in; [symmetry; exact Hp | now apply in_or_app]. }
  split; [rewrite Hc; apply seq_NoDup|].
  split; [now apply NoDup_app_remove_r in Hnd|].
  split; [now apply NoDup_app_remove_l in Hnd|].
  split.
  { intros u Hu. split; [apply Hiff; now left|].
    now apply (NoDup_app_disjoint _ _ u Hnd). }
  split; [exact Hiff|].
  split.
  { intros s0 index. destruct (at_ (files s0) index) as [x|] eqn:E.
    - destruct (removeFile_in_range p s0 index x E) as (l1 & l2 & _ & _ & ->).
      cbn [effects]. rewrite revokedUrls_app.
      destruct (callOnFilesChange_only_notifies p (l1 ++ l2)) as (_ & -> & _).
      unfold previewsOf. cbn [flat_map]. now destruct (preview x).
    - now rewrite removeFile_undefined. }
  unfold unmount. now rewrite app_nil_r.
Qed.

End Release.

(** ** The delayed clear of the error *)

Section ErrorTimer.

(** C5, as stated, fails: a first batch sets an error at time 0, a
    second batch sets another error at time 3000; at time 5000 the timer
    of the first batch runs and clears the error of the second, 2000 ms
    after it was set. *)
Lemma earlier_timer_clears_later_error :
  let s3 := fst (run Sample.props initialState
                   [SubmitBatch [Sample.docB]; Wait 3000; SubmitBatch [Sample.huge]]) in
  error s3 = Some (tooLargeMessage "huge.png" 1000)
  /\ now s3 = 3000
  /\ timers s3 = [5000; 8000]
  /\ now (elapse s3 2000) = 5000
  /\ error (elapse s3 2000) = None.
Proof. repeat split. Qed.

(** C5, amended. A [processFiles] call with a rejection replaces [error]
    by its first rejection message at once and adds a timer due 5000 ms
    later, without cancelling the timers already pending; after [ms]
    more milliseconds the new message is still shown exactly when no
    pending timer, an earlier one or the new one, has become due: the
    earliest pending timer clears it. *)
Theorem error_cleared_by_earliest_timer (p : Props) (s : State)
    (fileList : list File) (first : string) (rest : list string) (ms : Z) :
  rejections p (files s) fileList (emptyBatch s) = first :: rest ->
  let s1 := state (processFiles p s fileList) in
  error s1 = Some first
  /\ timers s1 = timers s ++ [now s + 5000]
  /\ error (elapse s1 ms)
     = if existsb (fun deadline => deadline <=? now s + ms) (timers s) || (5000 <=? ms)
       then None else Some first.
Proof.
  intros Hr s1.
  pose proof (processFiles_error p s fileList) as He.
  pose proof (processFiles_timers p s fileList) as Ht.
  pose proof (processFiles_now p s fileList) as Hn.
  rewrite batch_errors, Hr in He, Ht. cbn [hd_error] in He. fold s1 in He, Ht, Hn.
  split; [exact He|]. split; [exact Ht|].
  unfold elapse. cbn [error]. rewrite Ht, Hn, He, existsb_app. cbn [existsb].
  unfold due. rewrite orb_false_r.
  replace (now s + 5000 <=? now s + ms) with (5000 <=? ms); [reflexivity|].
  destruct (5000 <=? ms) eqn:E; symmetry.
  - apply Z.leb_le in E. apply Z.leb_le. lia.
  - apply Z.leb_gt in E. apply Z.leb_gt. lia.
Qed.

Lemma error_cleared_by_earliest_timer_witness :
  error (elapse (state (processFiles Sample.props
                          (elapse (state (processFiles Sample.props initialState
                                            [Sample.docB])) 3000)
                          [Sample.huge])) 2000)
  = None.
Proof.
  exact (proj2 (proj2 (error_cleared_by_earliest_timer Sample.props
                         (elapse (state (processFiles Sample.props initialState
                                           [Sample.docB])) 3000)
                         [Sample.huge] (tooLargeMessage "huge.png" 1000) [] 2000
                         eq_refl))).
Defined.

End ErrorTimer.

Lemma capacity_invariant_witness :
  Z.of_nat (List.length (files (fst (run Sample.props initialState
                                       [SubmitBatch [Sample.imgA; Sample.imgC]])))) <= 2
  /\ errors (forEach Sample.props (files Sample.twoAccepted) [Sample.imgD; Sample.huge]
               (emptyBatch Sample.twoAccepted))
     = [capacityMessage 2; tooLargeMessage "huge.png" 1000].
Proof.
  destruct (capacity_invariant Sample.props [SubmitBatch [Sample.imgA; Sample.imgC]]
              [Sample.imgD; Sample.huge]) as [Hle Hfull].
  - vm_compute. discriminate.
  - split; [exact Hle|]. exact (proj2 (proj2 (proj2 (Hfull eq_refl)))).
Defined.

(* ------------------------------------------------------------------ *)
(** * Further properties *)

(** ** Which candidates a batch stages *)

Section StagedCandidates.

Variable p : Props.

Lemma passes_rejection (accepted : list FileWithPreview) (b : Batch) (f : File) :
  passes p f = false -> rejection p accepted b f <> None.
Proof.
  unfold passes, rejection. now destruct (validateFile p f).
Qed.

Lemma forEach_stagedFiles (accepted : list FileWithPreview)
    (fileList : list File) (b : Batch) :
  stagedFiles (forEach p accepted fileList b)
  = stagedFiles b
    ++ firstn (Z.to_nat (maxFiles p
                         - Z.of_nat (List.length accepted + List.length (newFiles b))))
         (filter (passes p) fileList).
Proof.
  revert b. induction fileList as [|f fileList IH]; intros b.
  - cbn. now rewrite firstn_nil, app_nil_r.
  - rewrite forEach_cons, IH. cbn [filter]. unfold forEachBody.
    destruct (rejection p accepted b f) as [message|] eqn:R.
    + cbn [newFiles]. f_equal. unfold rejection, passes in *.
      destruct (validateFile p f); [reflexivity|].
      destruct (_ >=? _) eqn:E; [|discriminate].
      rewrite Z.geb_leb in E. apply Z.leb_le in E.
      now replace (Z.to_nat _) with 0%nat by lia.
    + destruct (rejection_None p accepted b f R) as [Hv Hroom].
      unfold passes at 2. rewrite Hv.
      remember (Z.to_nat (maxFiles p
                  - Z.of_nat (List.length accepted + List.length (newFiles b)))) as room.
      destruct room as [|room]; [lia|].
      assert (forall x, stagedFiles
                {| newFiles := newFiles b ++ [mkFileWithPreview f x];
                   errors := errors b; fresh := match x with Some _ => S (fresh b) | None => fresh b end;
                   performed := match x with
                                | Some u => performed b ++ [CreateObjectURL f u]
                                | None => performed b
                                end |} = stagedFiles b ++ [f]) as Hs.
      { intros x. unfold stagedFiles. cbn [newFiles]. now rewrite map_app. }
      destruct (JSString.startsWith (type f) "image/"); cbn [newFiles firstn];
        unfold stagedFiles; cbn [newFiles]; rewrite map_app, length_app;
        cbn [map file List.length]; rewrite <- app_assoc; cbn [app];
        do 3 f_equal; lia.
Qed.

End StagedCandidates.

(** X1. The files a call of [processFiles] appends are, in their order in
    the batch, the first candidates that pass [validateFile], as many as
    there is room for under [maxFiles]; in particular the same file given
    twice is appended twice. *)
Theorem accepted_are_first_valid (p : Props) (s : State) (fileList : list File) :
  map file (files (state (processFiles p s fileList)))
  = map file (files s)
    ++ firstn (Z.to_nat (maxFiles p - Z.of_nat (List.length (files s))))
         (filter (passes p) fileList).
Proof.
  rewrite processFiles_files, map_app. f_equal.
  pose proof (forEach_stagedFiles p (files s) fileList (emptyBatch s)) as H.
  unfold stagedFiles in H. rewrite H. cbn [emptyBatch newFiles map app List.length].
  now rewrite Nat.add_0_r.
Qed.

(** ** Batches in sequence *)

Section TwoBatches.

Variable p : Props.

Lemma rejection_shift (accepted n0 : list FileWithPreview) (b b' : Batch) (f : File) :
  newFiles b = n0 ++ newFiles b' ->
  rejection p accepted b f = rejection p (accepted ++ n0) b' f.
Proof.
  intros H. unfold rejection. rewrite H, !length_app.
  now rewrite Nat.add_assoc.
Qed.

(** The loop sees only how many files are accepted or staged: moving
    staged files to the accepted ones changes nothing of its course. *)
Lemma forEach_shift (accepted n0 : list FileWithPreview) (fileList : list File)
    (b b' : Batch) :
  newFiles b = n0 ++ newFiles b' ->
  fresh b = fresh b' ->
  newFiles (forEach p accepted fileList b)
  = n0 ++ newFiles (forEach p (accepted ++ n0) fileList b')
  /\ fresh (forEach p accepted fileList b)
     = fresh (forEach p (accepted ++ n0) fileList b')
  /\ rejections p accepted fileList b = rejections p (accepted ++ n0) fileList b'.
Proof.
  revert b b'. induction fileList as [|f fileList IH]; intros b b' Hn Hf.
  - now cbn.
  - rewrite !forEach_cons. cbn [rejections].
    rewrite <- (rejection_shift accepted n0 b b' f Hn).
    assert (newFiles (forEachBody p accepted b f)
            = n0 ++ newFiles (forEachBody p (accepted ++ n0) b' f)
            /\ fresh (forEachBody p accepted b f)
               = fresh (forEachBody p (accepted ++ n0) b' f)) as [Hn' Hf'].
    { unfold forEachBody. rewrite <- (rejection_shift accepted n0 b b' f Hn).
      destruct (rejection p accepted b f); [now split|].
      destruct (JSString.startsWith (type f) "image/"); cbn [newFiles fresh];
        rewrite Hn, Hf, <- app_assoc; now split. }
    destruct (IH _ _ Hn' Hf') as (H1 & H2 & H3).
    now rewrite H1, H2, H3.
Qed.

Lemma processFiles_createdUrls (s : State) (fileList : list File) :
  createdUrls (effects (processFiles p s fileList))
  = previewsOf (newFiles (forEach p (files s) fileList (emptyBatch s))).
Proof.
  rewrite processFiles_effects, batch_performed, createdUrls_app,
    createdUrls_allocationsOf.
  destruct (timer_and_callback_touch_no_url p
              (errors (forEach p (files s) fileList (emptyBatch s)))
              (newFiles (forEach p (files s) fileList (emptyBatch s)))
              (files s ++ newFiles (forEach p (files s) fileList (emptyBatch s))))
    as (H & _).
  cbv zeta in H. rewrite H. apply app_nil_r.
Qed.

(** X2. Dropping two lists one after the other accepts the same files,
    with the same previews, as dropping them as one list; the rejection
    messages of the single drop are those of the first drop followed by
    those of the second. *)
Theorem two_batches_as_one (s : State) (l1 l2 : list File) :
  let o1 := processFiles p s l1 in
  let o2 := processFiles p (state o1) l2 in
  let o := processFiles p s (l1 ++ l2) in
  files (state o2) = files (state o)
  /\ nextUrl (state o2) = nextUrl (state o)
  /\ createdUrls (effects o1 ++ effects o2) = createdUrls (effects o)
  /\ rejections p (files s) (l1 ++ l2) (emptyBatch s)
     = rejections p (files s) l1 (emptyBatch s)
       ++ rejections p (files (state o1)) l2 (emptyBatch (state o1)).
Proof.
  intros o1 o2 o.
  set (b1 := forEach p (files s) l1 (emptyBatch s)).
  assert (files (state o1) = files s ++ newFiles b1) as Hf1
    by apply processFiles_files.
  assert (nextUrl (state o1) = fresh b1) as Hu1 by apply processFiles_nextUrl.
  destruct (forEach_shift (files s) (newFiles b1) l2 b1 (emptyBatch (state o1)))
    as (Hn & Hf & Hr).
  { cbn [emptyBatch newFiles]. now rewrite app_nil_r. }
  { cbn [emptyBatch fresh]. now rewrite Hu1. }
  rewrite <- Hf1 in Hn, Hf, Hr.
  assert (forEach p (files s) (l1 ++ l2) (emptyBatch s)
          = forEach p (files s) l2 b1) as Hall by apply forEach_app.
  split.
  { unfold o2, o. rewrite !processFiles_files, Hall, Hn, Hf1.
    symmetry. apply app_assoc. }
  split.
  { unfold o2, o. rewrite !processFiles_nextUrl, Hall. now rewrite Hf. }
  split.
  { unfold o1, o2, o. rewrite createdUrls_app, !processFiles_createdUrls.
    rewrite Hall, Hn. fold b1. now rewrite previewsOf_app. }
  pose proof (forEach_errors p (files s) (l1 ++ l2) (emptyBatch s)) as He.
  rewrite Hall, forEach_errors in He. unfold b1 in He at 1.
  rewrite forEach_errors in He. cbn [emptyBatch errors app] in He.
  now rewrite <- He, Hr.
Qed.

(** X3. A batch of which nothing is staged can be submitted again with
    the same result: [files] and the next blob URL stay as they were, and
    [error] is the same message both times. *)
Theorem rejected_batch_again (s : State) (fileList : list File) :
  newFiles (forEach p (files s) fileList (emptyBatch s)) = [] ->
  let s1 := state (processFiles p s fileList) in
  let s2 := state (processFiles p s1 fileList) in
  files s1 = files s
  /\ files s2 = files s
  /\ nextUrl s2 = nextUrl s
  /\ error s2 = error s1.
Proof.
  intros Hnone s1 s2.
  assert (files s1 = files s) as Hf.
  { unfold s1. now rewrite processFiles_files, Hnone, app_nil_r. }
  assert (nextUrl s1 = nextUrl s) as Hu.
  { unfold s1. rewrite processFiles_nextUrl.
    destruct (forEach_shape p (files s) fileList (emptyBatch s))
      as (staged & Hn & _ & _ & Hfresh & _).
    rewrite Hnone in Hn. cbn [emptyBatch newFiles app] in Hn. subst staged.
    rewrite Hfresh. cbn. lia. }
  assert (forEach p (files s1) fileList (emptyBatch s1)
          = forEach p (files s) fileList (emptyBatch s)) as Hsame.
  { unfold emptyBatch. now rewrite Hf, Hu. }
  split; [exact Hf|].
  split.
  { unfold s2. now rewrite processFiles_files, Hsame, Hnone, app_nil_r. }
  split.
  { unfold s2. rewrite processFiles_nextUrl, Hsame, <- Hu.
    unfold s1. now rewrite processFiles_nextUrl. }
  unfold s2. rewrite processFiles_error, Hsame.
  unfold s1. now rewrite processFiles_error.
Qed.

End TwoBatches.

Lemma rejected_batch_again_witness :
  error (state (processFiles Sample.props
                  (state (processFiles Sample.props initialState
                            [Sample.docB; Sample.huge]))
                  [Sample.docB; Sample.huge]))
  = Some (unsupportedMessage "docB.pdf").
Proof.
  destruct (rejected_batch_again Sample.props initialState
              [Sample.docB; Sample.huge] eq_refl) as (_ & _ & _ & ->).
  reflexivity.
Defined.

(** ** Removing an accepted file *)

Section Removal.

Variable p : Props.
Variable s : State.

Lemma app_same_length {A : Type} (l1 l1' r r' : list A) :
  List.length l1 = List.length l1' -> l1 ++ r = l1' ++ r' -> l1 = l1' /\ r = r'.
Proof.
  revert l1'. induction l1 as [|x l1 IH]; intros [|y l1'] Hlen H;
    try discriminate; [now split|].
  cbn in *. injection H as -> H. injection Hlen as Hlen.
  destruct (IH _ Hlen H) as [-> ->]. now split.
Qed.

(** X4. For an index in range, [removeFile] drops exactly the entry at
    that position: the rows before it keep their position, the rows after
    it move up by one; the error message, its timers, the clock and the
    next blob URL are left as they were. *)
Theorem removeFile_shifts_rows (index j : Z) :
  0 <= index < Z.of_nat (List.length (files s)) ->
  let s' := state (removeFile p s index) in
  at_ (files s') j = (if j <? index then at_ (files s) j else at_ (files s) (j + 1))
  /\ error s' = error s
  /\ timers s' = timers s
  /\ now s' = now s
  /\ nextUrl s' = nextUrl s.
Proof.
  intros Hrange s'. destruct (at_in_range (files s) index Hrange) as [x Hx].
  destruct (removeFile_in_range p s index x Hx) as (l1 & l2 & Hl & Hlen & Ho).
  unfold s'. rewrite Ho, Hl. cbn [state files error timers now nextUrl].
  split; [|now repeat split].
  unfold at_. destruct (j <? index) eqn:Hj.
  - apply Z.ltb_lt in Hj. destruct (j <? 0) eqn:Hneg; [reflexivity|].
    apply Z.ltb_ge in Hneg. now rewrite !nth_error_app1 by lia.
  - apply Z.ltb_ge in Hj.
    replace (j <? 0) with false by (symmetry; apply Z.ltb_ge; lia).
    replace (j + 1 <? 0) with false by (symmetry; apply Z.ltb_ge; lia).
    rewrite !nth_error_app2 by lia.
    now replace (Z.to_nat (j + 1) - List.length l1)%nat
      with (S (Z.to_nat j - List.length l1)) by lia.
Qed.

(** X5. Accepting one file and removing it again, by the index of the
    last row, gives back the list of files there was, and revokes exactly
    the blob URL that was created for the file, if one was. *)
Theorem add_then_remove (f : File) :
  validateFile p f = None ->
  Z.of_nat (List.length (files s)) < maxFiles p ->
  let o1 := processFiles p s [f] in
  let o2 := removeFile p (state o1) (Z.of_nat (List.length (files s))) in
  List.length (files (state o1)) = S (List.length (files s))
  /\ files (state o2) = files s
  /\ thrown o2 = None
  /\ revokedUrls (effects o2) = createdUrls (effects o1).
Proof.
  intros Hv Hroom o1 o2.
  assert (rejection p (files s) (emptyBatch s) f = None) as R.
  { unfold rejection. rewrite Hv. cbn [emptyBatch newFiles List.length].
    now replace (_ >=? _) with false
      by (symmetry; rewrite Z.geb_leb; apply Z.leb_gt; lia). }
  assert (exists x, newFiles (forEach p (files s) [f] (emptyBatch s)) = [x]) as [x Hx].
  { cbn [forEach fold_left]. unfold forEachBody. rewrite R.
    destruct (JSString.startsWith (type f) "image/"); cbn; eauto. }
  assert (files (state o1) = files s ++ [x]) as Hf1.
  { unfold o1. now rewrite processFiles_files, Hx. }
  assert (createdUrls (effects o1) = previewsOf [x]) as Hc.
  { unfold o1. now rewrite processFiles_createdUrls, Hx. }
  assert (at_ (files (state o1)) (Z.of_nat (List.length (files s))) = Some x) as Hat.
  { unfold at_. rewrite Hf1.
    replace (_ <? 0) with false by (symmetry; apply Z.ltb_ge; lia).
    rewrite Nat2Z.id, nth_error_app2, Nat.sub_diag by lia. reflexivity. }
  destruct (removeFile_in_range p (state o1) _ x Hat) as (l1 & l2 & Hl & Hlen & Ho).
  rewrite Hf1 in Hl.
  destruct (app_same_length (files s) l1 [x] (x :: l2) ltac:(lia) Hl) as [<- Hl2].
  injection Hl2 as <-.
  split; [rewrite Hf1, length_app; cbn; lia|].
  unfold o2. rewrite Ho. cbn [state files thrown effects].
  split; [apply app_nil_r|]. split; [reflexivity|].
  rewrite revokedUrls_app, Hc.
  destruct (callOnFilesChange_only_notifies p (files s ++ [])) as (_ & -> & _).
  unfold previewsOf. cbn [flat_map]. now destruct (preview x).
Qed.

End Removal.

Lemma removeFile_shifts_rows_witness :
  at_ (files (state (removeFile Sample.props Sample.twoAccepted 0))) 0
  = at_ (files Sample.twoAccepted) 1.
Proof.
  refine (proj1 (removeFile_shifts_rows Sample.props Sample.twoAccepted 0 0 _)).
  vm_compute. split; [discriminate | reflexivity].
Defined.

Lemma add_then_remove_witness :
  files (state (removeFile Sample.props
                  (state (processFiles Sample.props initialState [Sample.imgA])) 0))
  = [].
Proof.
  refine (proj1 (proj2 (add_then_remove Sample.props initialState Sample.imgA _ _))).
  - reflexivity.
  - reflexivity.
Defined.

(** ** What holds of every state the widget reaches *)

Section Reachable.

Variable p : Props.

Lemma stagedFrom_wellFormed (fileList : list File) (x : FileWithPreview) :
  stagedFrom p fileList x -> wellFormedEntry p x.
Proof. intros (_ & Hv & Hp). now split. Qed.

Lemma perform_wellFormed (s : State) (c : Call) :
  Forall (wellFormedEntry p) (files s) ->
  Forall (wellFormedEntry p) (files (state (perform p s c))).
Proof.
  intros H. destruct c as [fileList | index | ms]; cbn [perform state elapse files].
  - rewrite processFiles_files. apply Forall_app. split; [exact H|].
    destruct (forEach_shape p (files s) fileList (emptyBatch s))
      as (staged & -> & _ & _ & _ & Hs & _).
    cbn [emptyBatch newFiles app].
    eapply Forall_impl; [|exact Hs]. apply stagedFrom_wellFormed.
  - destruct (at_ (files s) index) as [x|] eqn:E.
    + destruct (removeFile_in_range p s index x E) as (l1 & l2 & Hl & _ & ->).
      cbn [state files]. rewrite Hl in H. apply Forall_app in H as [H1 H2].
      apply Forall_app. split; [exact H1|]. now inversion H2.
    + now rewrite removeFile_undefined.
  - exact H.
Qed.

Lemma run_wellFormed (cs : list Call) :
  Forall (wellFormedEntry p) (files (fst (run p initialState cs))).
Proof.
  apply (run_invariant p (fun s _ => Forall (wellFormedEntry p) (files s))
           (fun s _ c => perform_wellFormed s c) cs initialState []).
  constructor.
Qed.

(** X6. After any sequence of batches, removals and waits, every accepted
    file is one that [validateFile] passes (so it is not larger than
    [maxSize] and some type rule matches it), and it has a preview exactly
    when its declared type starts with [image/]. *)
Theorem accepted_files_are_valid (cs : list Call) :
  Forall (fun x =>
            validateFile p (file x) = None
            /\ size (file x) <= maxSize p
            /\ existsb (typeMatches (type (file x)) (JSString.toLowerCase (name (file x))))
                 (acceptedTypes p) = true
            /\ (preview x <> None
                <-> JSString.startsWith (type (file x)) "image/" = true))
    (files (fst (run p initialState cs))).
Proof.
  eapply Forall_impl; [|apply run_wellFormed].
  intros x [Hv Hp]. split; [exact Hv|]. split; [|split; [|exact Hp]].
  - unfold validateFile in Hv. destruct (size (file x) >? maxSize p) eqn:E;
      [discriminate|]. rewrite Z.gtb_ltb in E. apply Z.ltb_ge in E. exact E.
  - unfold validateFile in Hv. destruct (size (file x) >? maxSize p); [discriminate|].
    cbv zeta in Hv. now destruct (existsb _ _).
Qed.

(** X7. In the list the widget renders, every accepted image shows its
    own preview and every other file shows the PDF icon or the plain file
    icon: the image icon of [getFileIcon] is never displayed. *)
Theorem image_rows_show_previews (cs : list Call) :
  Forall (fun x =>
            (if JSString.startsWith (type (file x)) "image/"
             then exists u, preview x = Some u /\ thumbnail x = Img u
             else thumbnail x = IconBox (if String.eqb (type (file x)) "application/pdf"
                                         then FileText else FileIcon))
            /\ thumbnail x <> IconBox ImageIcon)
    (files (fst (run p initialState cs))).
Proof.
  eapply Forall_impl; [|apply run_wellFormed].
  intros x [_ Hp]. unfold thumbnail, getFileIcon.
  destruct (JSString.startsWith (type (file x)) "image/") eqn:I.
  - destruct (preview x) as [u|] eqn:P.
    + split; [now exists u | discriminate].
    + exfalso. now apply Hp.
  - destruct (preview x) as [u|] eqn:P.
    + exfalso. assert (Some u <> None) as N by discriminate.
      apply Hp in N. discriminate.
    + split; [reflexivity|]. now destruct (String.eqb _ _).
Qed.

End Reachable.

(** ** The error banner over time *)

Section Banner.

Variable p : Props.

Lemma perform_timersPending (s : State) (c : Call) :
  match c with Wait ms => 0 <= ms | _ => True end ->
  timersPending s -> timersPending (state (perform p s c)).
Proof.
  intros Hc [Hd He]. destruct c as [fileList | index | ms]; cbn [perform state].
  - unfold timersPending.
    rewrite processFiles_timers, processFiles_now, processFiles_error.
    destruct (errors (forEach p (files s) fileList (emptyBatch s))) as [|first rest].
    + rewrite app_nil_r. split; [exact Hd | now intros []].
    + split.
      * apply Forall_app. split; [exact Hd|]. constructor; [lia | constructor].
      * intros _ H. now apply app_eq_nil in H as [_ H].
  - destruct (at_ (files s) index) as [x|] eqn:E.
    + destruct (removeFile_in_range p s index x E) as (l1 & l2 & _ & _ & ->).
      now split.
    + rewrite removeFile_undefined by exact E. now split.
  - unfold timersPending, elapse. cbn [now timers error]. split.
    + apply Forall_forall. intros d Hin. apply filter_In in Hin as [Hin Hnd].
      rewrite Forall_forall in Hd. specialize (Hd d Hin).
      unfold due in Hnd. apply negb_true_iff, Z.leb_gt in Hnd. lia.
    + destruct (existsb (due (now s + ms)) (timers s)) eqn:X; [now intros []|].
      intros Herr Hnil. apply He in Herr.
      destruct (timers s) as [|d ds]; [now apply Herr|].
      cbn [existsb filter] in *. apply orb_false_elim in X as [X _].
      rewrite X in Hnil. discriminate.
Qed.

Lemma run_timersPending (cs : list Call) (s : State) :
  forwardInTime cs -> timersPending s -> timersPending (fst (run p s cs)).
Proof.
  revert s. induction cs as [|c cs IH]; intros s Hcs Hs; [exact Hs|].
  rewrite run_cons. cbn [fst]. inversion Hcs as [|? ? Hc Hcs']; subst.
  apply IH; [exact Hcs' | now apply perform_timersPending].
Qed.

Lemma filter_all_due (t : Z) (l : list Z) :
  Forall (fun deadline => deadline <= t) l ->
  filter (fun d => negb (due t d)) l = [].
Proof.
  induction 1 as [|d ds Hd _ IH]; [reflexivity|].
  cbn [filter]. unfold due at 1.
  now replace (d <=? t) with true by (symmetry; apply Z.leb_le; lia).
Qed.

Lemma timersPending_five_seconds (s : State) :
  timersPending s ->
  error (elapse s 5000) = None /\ timers (elapse s 5000) = [].
Proof.
  intros [Hd He]. unfold elapse. cbn [error timers]. split.
  - destruct (error s) eqn:E; [|now destruct (existsb _ _)].
    assert (timers s <> []) as Hne by (apply He; discriminate).
    destruct (timers s) as [|d ds]; [now elim Hne|].
    inversion Hd as [|? ? Hdd _]; subst. cbn [existsb]. unfold due at 1.
    now replace (d <=? now s + 5000) with true by (symmetry; apply Z.leb_le; lia).
  - apply filter_all_due. eapply Forall_impl; [|exact Hd].
    intros d Hdd. cbv beta in Hdd. lia.
Qed.

(** X8. After any sequence of batches, removals and waits in which time
    does not go backwards, an error is shown only while a timer started
    by some batch is pending, and every pending timer is due within the
    next 5000 ms: if the user then does nothing for 5000 ms, the error is
    cleared and no timer is left. *)
Theorem error_gone_after_five_seconds (cs : list Call) :
  forwardInTime cs ->
  let s := fst (run p initialState cs) in
  (error s <> None -> timers s <> [])
  /\ Forall (fun deadline => now s < deadline <= now s + 5000) (timers s)
  /\ error (elapse s 5000) = None
  /\ timers (elapse s 5000) = [].
Proof.
  intros Hcs s.
  assert (timersPending s) as H.
  { apply run_timersPending; [exact Hcs|]. split; [constructor | now intros []]. }
  destruct (timersPending_five_seconds s H) as [H1 H2].
  destruct H as [Hd He]. auto.
Qed.

Lemma rejection_not_empty (accepted : list FileWithPreview) (b : Batch) (f : File)
    (message : string) :
  rejection p accepted b f = Some message -> message <> EmptyString.
Proof.
  unfold rejection, validateFile.
  destruct (size f >? maxSize p); [intros [= <-]; discriminate|].
  cbv zeta. destruct (negb _); [intros [= <-]; discriminate|].
  destruct (_ >=? _); [intros [= <-]; discriminate | discriminate].
Qed.

Lemma rejections_not_empty (accepted : list FileWithPreview)
    (fileList : list File) (b : Batch) :
  Forall (fun message => message <> EmptyString) (rejections p accepted fileList b).
Proof.
  revert b. induction fileList as [|f fileList IH]; intros b; [constructor|].
  cbn [rejections]. apply Forall_app. split; [|apply IH].
  destruct (rejection p accepted b f) as [message|] eqn:R; constructor;
    [now apply rejection_not_empty in R | constructor].
Qed.

Lemma perform_error_not_empty (s : State) (c : Call) :
  error s <> Some EmptyString -> error (state (perform p s c)) <> Some EmptyString.
Proof.
  intros H. destruct c as [fileList | index | ms]; cbn [perform state].
  - rewrite processFiles_error, batch_errors.
    pose proof (rejections_not_empty (files s) fileList (emptyBatch s)) as Hr.
    destruct (rejections p (files s) fileList (emptyBatch s)) as [|first rest];
      [discriminate|].
    inversion Hr as [|? ? Hfirst _]; subst. cbn. congruence.
  - destruct (at_ (files s) index) as [x|] eqn:E.
    + now destruct (removeFile_in_range p s index x E) as (l1 & l2 & _ & _ & ->).
    + now rewrite removeFile_undefined.
  - unfold elapse. cbn [error]. now destruct (existsb _ _).
Qed.

(** X9. No rejection message is the empty string, so in every state the
    widget reaches the banner is rendered exactly when [error] is set,
    and it shows that message. *)
Theorem banner_shows_error (cs : list Call) :
  let s := fst (run p initialState cs) in
  banner s = error s
  /\ (forall accepted b f, rejection p accepted b f <> Some EmptyString).
Proof.
  intros s. split.
  - assert (error s <> Some EmptyString) as H.
    { apply (run_invariant p (fun s _ => error s <> Some EmptyString)
               (fun s _ c => perform_error_not_empty s c) cs initialState []).
      discriminate. }
    unfold banner. destruct (error s) as [message|]; [|reflexivity].
    destruct (String.eqb message EmptyString) eqn:E; [|reflexivity].
    apply String.eqb_eq in E. congruence.
  - intros accepted b f H. now apply rejection_not_empty in H.
Qed.

End Banner.

Lemma error_gone_after_five_seconds_witness :
  error (elapse (fst (run Sample.props initialState
                        [SubmitBatch [Sample.docB]; Wait 3000;
                         SubmitBatch [Sample.huge]; Wait 1000])) 5000)
  = None.
Proof.
  refine (proj1 (proj2 (proj2 (error_gone_after_five_seconds Sample.props
                                 [SubmitBatch [Sample.docB]; Wait 3000;
                                  SubmitBatch [Sample.huge]; Wait 1000] _)))).
  repeat constructor; discriminate.
Defined.

(** ** Gestures on the rendered widget *)

Section Gestures.

Variable p : Props.

Lemma run_app (s : State) (cs1 cs2 : list Call) :
  run p s (cs1 ++ cs2)
  = (fst (run p (fst (run p s cs1)) cs2),
     snd (run p s cs1) ++ snd (run p (fst (run p s cs1)) cs2)).
Proof.
  revert s. induction cs1 as [|c cs1 IH]; intros s.
  - cbn. now destruct (run p s cs2).
  - cbn [app]. rewrite !run_cons, IH. cbn [fst snd]. now rewrite app_assoc.
Qed.

Lemma run_one (s : State) (c : Call) :
  run p s [c] = (state (perform p s c), effects (perform p s c)).
Proof. cbn. now rewrite app_nil_r. Qed.

Lemma mapIndexed_index {A : Type} (l : list A) (k : Z) (row : nat) (index : Z) :
  nth_error (mapIndexed (fun _ i => i) l k) row = Some index ->
  index = k + Z.of_nat row /\ (row < List.length l)%nat.
Proof.
  revert k row. induction l as [|x l IH]; intros k [|row] H; try discriminate.
  - cbn in H. injection H as <-. cbn. lia.
  - cbn [mapIndexed nth_error] in H. apply IH in H as [-> H]. cbn. lia.
Qed.

(** Every rendered remove button carries the index of its own row. *)
Lemma removeButtons_in_range (fs : list FileWithPreview) (row : nat) (index : Z) :
  nth_error (removeButtons fs) row = Some index ->
  index = Z.of_nat row /\ 0 <= index < Z.of_nat (List.length fs).
Proof.
  intros H. apply mapIndexed_index in H as [-> H]. lia.
Qed.

(** One gesture does what at most one call of the engine does, and
    raises nothing. *)
Lemma gesture_as_calls (w : Widget) (g : Gesture) :
  exists cs : list Call,
    core (widget (gesture p w g)) = fst (run p (core w) cs)
    /\ emitted (gesture p w g) = snd (run p (core w) cs)
    /\ raised (gesture p w g) = None.
Proof.
  destruct g as [| | droppedFiles | value selectedFiles | row | ms]; cbn [gesture].
  - now exists [].
  - now exists [].
  - destruct droppedFiles as [|f l]; [now exists []|].
    exists [SubmitBatch (f :: l)]. rewrite run_one. cbn [handleDrop widget emitted raised core fst snd perform].
    repeat split. apply processFiles_thrown.
  - destruct selectedFiles as [[|f l]|]; [now exists [] | | now exists []].
    exists [SubmitBatch (f :: l)]. rewrite run_one.
    cbn [handleFileInput widget emitted raised core fst snd perform].
    repeat split. apply processFiles_thrown.
  - destruct (nth_error (removeButtons (files (core w))) row) as [index|] eqn:E;
      [|now exists []].
    apply removeButtons_in_range in E as [_ Hrange].
    destruct (at_in_range (files (core w)) index Hrange) as [x Hx].
    destruct (removeFile_in_range p (core w) index x Hx) as (l1 & l2 & _ & _ & Ho).
    exists [RemoveEntry index]. rewrite run_one.
    cbn [widget emitted raised core fst snd perform]. now rewrite Ho.
  - exists [Wait ms]. now rewrite run_one.
Qed.

Lemma play_as_run (gs : list Gesture) (w : Widget) :
  exists cs : list Call,
    core (fst (fst (play p w gs))) = fst (run p (core w) cs)
    /\ snd (fst (play p w gs)) = snd (run p (core w) cs)
    /\ snd (play p w gs) = [].
Proof.
  revert w. induction gs as [|g gs IH]; intros w; [now exists []|].
  destruct (gesture_as_calls w g) as (cs1 & Hc1 & He1 & Hr1).
  destruct (IH (widget (gesture p w g))) as (cs2 & Hc2 & He2 & Hr2).
  exists (cs1 ++ cs2). cbn [play].
  destruct (play p (widget (gesture p w g)) gs) as [[w' es] xs].
  cbn [fst snd] in *. rewrite run_app. cbn [fst snd].
  rewrite Hr1, Hr2, <- Hc1, <- He1, <- Hc2, <- He2. now repeat split.
Qed.

(** X10. Whatever the user does to the mounted widget (drag over or out,
    drop or choose files, an empty drop or selection included, click the
    remove button of a rendered row, wait), no handler raises an
    exception: the index a remove button passes is the index of its row;
    and the widget's state and effects are those of a sequence of
    [processFiles], [removeFile] and timer steps from the initial state. *)
Theorem gestures_never_throw (gs : list Gesture) :
  let r := play p mounted gs in
  snd r = []
  /\ (forall row index,
        nth_error (removeButtons (files (core (fst (fst r))))) row = Some index ->
        index = Z.of_nat row
        /\ thrown (removeFile p (core (fst (fst r))) index) = None)
  /\ exists cs : list Call,
       core (fst (fst r)) = fst (run p initialState cs)
       /\ snd (fst r) = snd (run p initialState cs).
Proof.
  intros r. destruct (play_as_run gs mounted) as (cs & Hc & He & Hr).
  fold r in Hc, He, Hr. split; [exact Hr|]. split; [|now exists cs].
  intros row index H. apply removeButtons_in_range in H as [-> Hrange].
  split; [reflexivity|].
  destruct (at_in_range (files (core (fst (fst r)))) _ Hrange) as [x Hx].
  now destruct (removeFile_in_range p _ _ x Hx) as (l1 & l2 & _ & _ & ->).
Qed.

Lemma rejections_none (s : State) (fileList : list File) (b : Batch) :
  (forall g, In g fileList -> validateFile p g = None) ->
  Z.of_nat (List.length (files s) + List.length (newFiles b)
            + List.length fileList) <= maxFiles p ->
  rejections p (files s) fileList b = [].
Proof.
  revert b. induction fileList as [|g fileList IH]; intros b Hv Hr; [reflexivity|].
  cbn [rejections].
  assert (rejection p (files s) b g = None) as R.
  { unfold rejection. rewrite (Hv g (or_introl eq_refl)).
    cbn [List.length] in Hr.
    now replace (_ >=? _) with false
      by (symmetry; rewrite Z.geb_leb; apply Z.leb_gt; lia). }
  rewrite R. cbn [app]. apply IH; [intros; apply Hv; now right|].
  unfold forEachBody. rewrite R. cbn [List.length] in Hr.
  destruct (JSString.startsWith (type g) "image/"); cbn [newFiles];
    rewrite length_app; cbn [List.length]; lia.
Qed.

(** X11. A batch whose files all pass [validateFile] and fit under
    [maxFiles] is accepted whole and in order, clears the error message
    at once and starts no timer. *)
Theorem valid_batch_accepted_whole (s : State) (fileList : list File) :
  (forall g, In g fileList -> validateFile p g = None) ->
  Z.of_nat (List.length (files s) + List.length fileList) <= maxFiles p ->
  let o := processFiles p s fileList in
  map file (files (state o)) = map file (files s) ++ fileList
  /\ error (state o) = None
  /\ timers (state o) = timers s
  /\ scheduled (effects o) = [].
Proof.
  intros Hvalid Hroom o.
  assert (rejections p (files s) fileList (emptyBatch s) = []) as Hr.
  { apply rejections_none; [exact Hvalid|].
    cbn [emptyBatch newFiles List.length]. lia. }
  split.
  { unfold o. rewrite processFiles_files, map_app. f_equal.
    pose proof (forEach_stagedFiles p (files s) fileList (emptyBatch s)) as H.
    unfold stagedFiles in H. rewrite H. cbn [emptyBatch newFiles map app List.length].
    assert (filter (passes p) fileList = fileList) as ->.
    { clear -Hvalid. induction fileList as [|g l IH]; [reflexivity|].
      cbn [filter]. unfold passes at 1. rewrite (Hvalid g (or_introl eq_refl)).
      f_equal. apply IH. intros; apply Hvalid; now right. }
    apply firstn_all2. lia. }
  unfold o. rewrite processFiles_error, processFiles_timers, processFiles_effects.
  rewrite batch_errors, Hr, batch_performed, !scheduled_app.
  destruct (allocationsOf_only_create
              (newFiles (forEach p (files s) fileList (emptyBatch s)))) as (_ & _ & ->).
  rewrite app_nil_r. repeat split.
  destruct (newFiles _); [reflexivity|]. apply callOnFilesChange_only_notifies.
Qed.

End Gestures.

Lemma valid_batch_accepted_whole_witness :
  map file (files (state (processFiles Sample.props initialState
                            [Sample.imgA; Sample.imgC])))
  = [Sample.imgA; Sample.imgC].
Proof.
  refine (proj1 (valid_batch_accepted_whole Sample.props initialState
                   [Sample.imgA; Sample.imgC] _ _)).
  - intros g [<- | [<- | []]]; reflexivity.
  - vm_compute. discriminate.
Defined.

(** ** Type rules *)

Section TypeRules.

Local Open Scope string_scope.
Import JSString.

Lemma typeMatches_extension (fileType fileName rule : string) :
  startsWith rule "." = true ->
  typeMatches fileType fileName rule = endsWith fileName rule.
Proof. intros H. unfold typeMatches. now rewrite H. Qed.

Lemma typeMatches_exact (fileType fileName rule : string) :
  startsWith rule "." = false ->
  includes rule "*" = false ->
  typeMatches fileType fileName rule = String.eqb fileType rule.
Proof. intros H1 H2. unfold typeMatches. now rewrite H1, H2. Qed.

Lemma lowerChar_not_upper (c : ascii) :
  ((65 <=? nat_of_ascii (lowerChar c)) && (nat_of_ascii (lowerChar c) <=? 90))%nat
  = false.
Proof.
  unfold lowerChar.
  destruct ((65 <=? nat_of_ascii c) && (nat_of_ascii c <=? 90))%nat eqn:E;
    [|exact E].
  apply andb_true_iff in E as [E1 E2].
  apply Nat.leb_le in E1. apply Nat.leb_le in E2.
  rewrite nat_ascii_embedding by lia.
  apply andb_false_iff. right. apply Nat.leb_gt. lia.
Qed.

Lemma hasUpper_toLowerCase (s : string) : hasUpper (toLowerCase s) = false.
Proof.
  induction s as [|c s IH]; [reflexivity|].
  cbn [toLowerCase hasUpper]. now rewrite lowerChar_not_upper, IH.
Qed.

Lemma hasUpper_substring (s : string) (n m : nat) :
  hasUpper s = false -> hasUpper (substring n m s) = false.
Proof.
  revert n m. induction s as [|c s IH]; intros n m H.
  - now destruct n, m.
  - cbn [hasUpper] in H. apply orb_false_elim in H as [Hc Hs].
    destruct n as [|n]; destruct m as [|m]; cbn [substring hasUpper];
      rewrite ?Hc, ?IH by exact Hs; reflexivity.
Qed.

Lemma endsWith_no_upper (s rule : string) :
  hasUpper s = false -> endsWith s rule = true -> hasUpper rule = false.
Proof.
  intros Hs H. unfold endsWith in H.
  destruct (_ <=? _)%nat; [|discriminate].
  apply String.eqb_eq in H. rewrite <- H. now apply hasUpper_substring.
Qed.

(** X12. The name of a file is put in lower case before it is compared
    with an extension rule, and the rule is not: an extension rule that
    has a capital letter, such as [.PDF], matches no file, so adding it to
    the rules changes the verdict on no file. *)
Theorem capital_extension_matches_nothing (p : Props) (rule : string)
    (rules : list string) (f : File) :
  startsWith rule "." = true ->
  hasUpper rule = true ->
  typeMatches (type f) (toLowerCase (name f)) rule = false
  /\ validateFile (withRules p (rule :: rules)) f = validateFile (withRules p rules) f.
Proof.
  intros Hdot Hup.
  assert (typeMatches (type f) (toLowerCase (name f)) rule = false) as H.
  { rewrite typeMatches_extension by exact Hdot.
    destruct (endsWith (toLowerCase (name f)) rule) eqn:E; [|reflexivity].
    apply endsWith_no_upper in E; [congruence | apply hasUpper_toLowerCase]. }
  split; [exact H|].
  unfold validateFile, withRules. cbn [maxSize acceptedTypes existsb].
  now rewrite H.
Qed.

Lemma prefix_of_empty (s : string) : String.prefix s "" = true -> s = "".
Proof. now destruct s. Qed.

(** X13. A file whose declared type is empty (the browser does not know
    it) passes only through an extension rule, provided no rule is empty
    or has an empty part before its slash. *)
Theorem untyped_file_needs_extension_rule (p : Props) (f : File) :
  type f = "" ->
  Forall (fun rule => startsWith rule "." = true \/ splitHead rule "/" <> "")
    (acceptedTypes p) ->
  validateFile p f = None ->
  exists rule,
    In rule (acceptedTypes p)
    /\ startsWith rule "." = true
    /\ endsWith (toLowerCase (name f)) rule = true.
Proof.
  intros Htype Hrules Hv. unfold validateFile in Hv.
  destruct (size f >? maxSize p); [discriminate|]. cbv zeta in Hv.
  destruct (existsb _ _) eqn:E; [|discriminate].
  apply existsb_exists in E as (rule & Hin & Hm).
  exists rule. split; [exact Hin|].
  rewrite Forall_forall in Hrules. specialize (Hrules rule Hin).
  rewrite Htype in Hm. unfold typeMatches in Hm.
  destruct (startsWith rule ".") eqn:D; [now split|].
  exfalso. destruct Hrules as [|Hbase]; [discriminate|].
  destruct (includes rule "*").
  - apply Hbase. now apply prefix_of_empty.
  - apply String.eqb_eq in Hm. subst rule. now apply Hbase.
Qed.

(** X14. A rule that begins with a star, such as [*] or [*/*], is not a
    catch-all: it is compared as a prefix like any other wildcard, so it
    matches no type that does not itself begin with a star. *)
Theorem star_rule_is_no_catch_all (fileType fileName rest : string) :
  startsWith fileType "*" = false ->
  typeMatches fileType fileName (String "*" rest) = false.
Proof.
  intros H. unfold typeMatches, startsWith in *.
  cbn [String.prefix includes splitHead].
  destruct (ascii_dec "." "*") as [D|_]; [discriminate D|].
  replace (Ascii.eqb "*" "/") with false by reflexivity.
  destruct (ascii_dec "*" "*") as [_|N]; [|now elim N].
  assert (String.prefix "" rest = true) as -> by now destruct rest.
  cbn [orb]. destruct fileType as [|c t]; [reflexivity|].
  cbn [String.prefix] in *. destruct (ascii_dec "*" c); [|reflexivity].
  now destruct t.
Qed.

Lemma existsb_incl {A : Type} (f : A -> bool) (l1 l2 : list A) :
  incl l1 l2 -> existsb f l1 = true -> existsb f l2 = true.
Proof.
  intros Hincl H. apply existsb_exists in H as (x & Hin & Hx).
  apply existsb_exists. exists x. split; [now apply Hincl | exact Hx].
Qed.

(** X15. The verdict of [validateFile] depends on the rules as a set:
    with more rules every file that passed still passes, and two lists
    with the same rules, in any order and with any repetitions, give the
    same verdict and message. *)
Theorem more_rules_accept_more (p : Props) (rules1 rules2 : list string) (f : File) :
  incl rules1 rules2 ->
  (validateFile (withRules p rules1) f = None ->
   validateFile (withRules p rules2) f = None)
  /\ (incl rules2 rules1 ->
      validateFile (withRules p rules1) f = validateFile (withRules p rules2) f).
Proof.
  intros H12. unfold validateFile, withRules. cbn [maxSize acceptedTypes].
  destruct (size f >? maxSize p); [now split|].
  set (m := typeMatches (type f) (toLowerCase (name f))).
  split.
  - destruct (existsb m rules1) eqn:E1; [|discriminate].
    now rewrite (existsb_incl m rules1 rules2 H12 E1).
  - intros H21. destruct (existsb m rules1) eqn:E1.
    + now rewrite (existsb_incl m rules1 rules2 H12 E1).
    + destruct (existsb m rules2) eqn:E2; [|reflexivity].
      rewrite (existsb_incl m rules2 rules1 H21 E2) in E1. discriminate.
Qed.

(** X16. With the props the page passes, a file is accepted by
    [validateFile] exactly when it has at most 10485760 bytes and either
    its declared type starts with [image], or is [application/pdf], or
    its name in lower case ends with [.doc], [.docx] or [.txt]. *)
Theorem page_accepts (f : File) :
  validateFile pageProps f = None
  <-> size f <= 10485760
      /\ (startsWith (type f) "image" = true
          \/ type f = "application/pdf"
          \/ endsWith (toLowerCase (name f)) ".doc" = true
          \/ endsWith (toLowerCase (name f)) ".docx" = true
          \/ endsWith (toLowerCase (name f)) ".txt" = true).
Proof.
  unfold validateFile, pageProps. cbn [maxSize acceptedTypes existsb].
  change "image/*" with ("image" ++ "/*").
  rewrite typeMatches_wildcard by reflexivity.
  rewrite (typeMatches_exact _ _ "application/pdf") by reflexivity.
  rewrite !typeMatches_extension by reflexivity.
  rewrite orb_false_r.
  change (10 * 1024 * 1024) with 10485760.
  destruct (size f >? 10485760) eqn:S.
  - split; [discriminate|]. intros [H _]. apply Z.gtb_lt in S. lia.
  - rewrite Z.gtb_ltb in S. apply Z.ltb_ge in S.
    destruct (startsWith (type f) "image") eqn:A; [cbn; intuition|].
    destruct (String.eqb (type f) "application/pdf") eqn:B.
    { apply String.eqb_eq in B. cbn. intuition. }
    apply String.eqb_neq in B.
    destruct (endsWith (toLowerCase (name f)) ".doc");
      destruct (endsWith (toLowerCase (name f)) ".docx");
      destruct (endsWith (toLowerCase (name f)) ".txt"); cbn;
      intuition; discriminate.
Qed.

End TypeRules.

Lemma capital_extension_matches_nothing_witness :
  validateFile (withRules Sample.props [".PNG"%string])
    (mkFile "photo.PNG" 10 EmptyString)
  = validateFile (withRules Sample.props []) (mkFile "photo.PNG" 10 EmptyString).
Proof.
  refine (proj2 (capital_extension_matches_nothing Sample.props ".PNG" []
                   (mkFile "photo.PNG" 10 EmptyString) _ _)); reflexivity.
Defined.

Lemma untyped_file_needs_extension_rule_witness :
  exists rule : string,
    In rule (acceptedTypes pageProps)
    /\ JSString.startsWith rule "." = true
    /\ JSString.endsWith (JSString.toLowerCase "NOTES.TXT") rule = true.
Proof.
  refine (untyped_file_needs_extension_rule pageProps
            (mkFile "NOTES.TXT" 10 EmptyString) _ _ _).
  - reflexivity.
  - repeat (apply Forall_cons;
              [first [left; reflexivity | right; vm_compute; discriminate]|]).
    apply Forall_nil.
  - reflexivity.
Defined.

Lemma star_rule_is_no_catch_all_witness :
  typeMatches "image/png" "a.png" "*/*" = false.
Proof.
  refine (star_rule_is_no_catch_all "image/png" "a.png" "/*" _). reflexivity.
Defined.

Lemma more_rules_accept_more_witness :
  validateFile (withRules Sample.props ["image/*"; "text/plain"]%string) Sample.imgA
  = None.
Proof.
  refine (proj1 (more_rules_accept_more Sample.props ["image/*"%string]
                   ["image/*"; "text/plain"]%string Sample.imgA _) _).
  - intros r [<- | []]. now left.
  - reflexivity.
Defined.

(** ** What the host application is told *)

Section Host.

Variable p : Props.
Hypothesis supplied : onFilesChange p = true.

Lemma perform_last_notification (s : State) (past : list Effect) (c : Call) :
  last (notifications past) [] = files s ->
  last (notifications (past ++ effects (perform p s c))) []
  = files (state (perform p s c)).
Proof.
  intros H. rewrite notifications_app.
  destruct c as [fileList | index | ms]; cbn [perform state effects].
  - rewrite (processFiles_notifications p s fileList supplied), processFiles_files.
    destruct (newFiles (forEach p (files s) fileList (emptyBatch s))) as [|x xs].
    + now rewrite !app_nil_r.
    + apply last_last.
  - destruct (at_ (files s) index) as [x|] eqn:E.
    + destruct (removeFile_in_range p s index x E) as (l1 & l2 & _ & _ & ->).
      cbn [state effects files]. rewrite notifications_app.
      assert (notifications (match preview x with
                             | Some u => [RevokeObjectURL u]
                             | None => []
                             end) = []) as -> by now destruct (preview x).
      unfold callOnFilesChange. rewrite supplied. cbn [app]. apply last_last.
    + rewrite removeFile_undefined by exact E. cbn [state effects notifications flat_map].
      now rewrite app_nil_r.
  - cbn [notifications flat_map elapse files]. now rewrite app_nil_r.
Qed.

(** X17. When a callback is supplied, the host application is never out
    of date: after any sequence of batches, removals (failed ones
    included) and waits, the list last passed to [onFilesChange] is the
    current list of accepted files, and if the callback was never called
    that list is still empty. *)
Theorem host_list_in_sync (cs : list Call) :
  last (notifications (snd (run p initialState cs))) []
  = files (fst (run p initialState cs)).
Proof.
  apply (run_invariant p (fun s past => last (notifications past) [] = files s)
           perform_last_notification cs initialState []).
  reflexivity.
Qed.

End Host.

Lemma host_list_in_sync_witness :
  last (notifications
          (snd (run Sample.props initialState
                  [SubmitBatch [Sample.imgA; Sample.docB]; RemoveEntry 7;
                   SubmitBatch [Sample.imgC]; RemoveEntry 0]))) []
  = [mkFileWithPreview Sample.imgC (Some 1%nat)].
Proof.
  exact (host_list_in_sync Sample.props eq_refl
           [SubmitBatch [Sample.imgA; Sample.docB]; RemoveEntry 7;
            SubmitBatch [Sample.imgC]; RemoveEntry 0]).
Defined.
